(** * Direct messaging API of the project-manager app

    A shallow embedding of [project_manager/messages_api.py]: the Django
    views [get_conversation_messages], [send_message_api],
    [mark_as_read_api], [get_unread_count_api], the Redis helpers
    [redis_exists] / [redis_publish] and the fan-out [publish_message].

    Tables are explicit state (a [Store]); every view is a function from
    the request and the store to a JSON response and the new store.  The
    Redis connection is a value of type [Redis] whose calls may raise. *)

From Stdlib Require Import ZArith Ascii String.
From stdpp Require Import base option list sets gmap strings sorting pretty.

Local Open Scope string_scope.
Local Open Scope list_scope.
Local Open Scope Z_scope.

(** ** Python [str] operations

    Text is modelled as [string] over ASCII code points, which is where
    [str.upper] acts letter by letter and [str.isspace] is the table
    below. *)
Module Str.

(** [c.isspace()] for a code point below 128: TAB..CR, FS..US, SPACE. *)
Definition isspace (c : ascii) : bool :=
  let n := nat_of_ascii c in
  ((9 <=? n)%nat && (n <=? 13)%nat) || ((28 <=? n)%nat && (n <=? 32)%nat).

Fixpoint lstrip (s : string) : string :=
  match s with
  | String c s' => if isspace c then lstrip s' else s
  | EmptyString => EmptyString
  end.

Definition rstrip (s : string) : string :=
  String.rev (lstrip (String.rev s)).

(** [s.strip()] *)
Definition strip (s : string) : string := rstrip (lstrip s).

Definition upper_char (c : ascii) : ascii :=
  let n := nat_of_ascii c in
  if ((97 <=? n)%nat && (n <=? 122)%nat)%bool
  then ascii_of_nat (n - 32) else c.

(** [s.upper()] *)
Fixpoint upper (s : string) : string :=
  match s with
  | String c s' => String (upper_char c) (upper s')
  | EmptyString => EmptyString
  end.

(** [s[:n]] *)
Fixpoint take (n : nat) (s : string) : string :=
  match n, s with
  | S n', String c s' => String c (take n' s')
  | _, _ => EmptyString
  end.

(** Truthiness of a string: [bool(s)]. *)
Definition truthy (s : string) : bool :=
  match s with EmptyString => false | String _ _ => true end.

Definition lower_char (c : ascii) : ascii :=
  let n := nat_of_ascii c in
  if ((65 <=? n)%nat && (n <=? 90)%nat)%bool
  then ascii_of_nat (n + 32) else c.

(** [s.lower()] *)
Fixpoint lower (s : string) : string :=
  match s with
  | String c s' => String (lower_char c) (lower s')
  | EmptyString => EmptyString
  end.

(** [s.isascii()]: every code point is below 128.  On such text the
    operations of this module are those of Python. *)
Fixpoint isascii (s : string) : bool :=
  match s with
  | String c s' => (nat_of_ascii c <? 128)%nat && isascii s'
  | EmptyString => true
  end.

(** [needle in hay] *)
Fixpoint contains (needle hay : string) : bool :=
  String.prefix needle hay
  || match hay with
     | String _ hay' => contains needle hay'
     | EmptyString => false
     end.

End Str.

(** ** Rows of [core.models] read by the messaging views *)

Record User := mkUser {
  user_id : nat;
  username : string;
  first_name : string;
  last_name : string;
}.

Record EmployeeProfile := mkEmployee {
  job_position : string;
  department : option string;      (* [employee.department.name], when set *)
}.

(** One [Message] row together with its rows of the [recipients]
    many-to-many table; that table holds a (message, user) pair at most
    once, so the recipients of a message form a set. *)
Record Message := mkMessage {
  msg_id : nat;
  sender_id : nat;
  recipients : gset nat;
  content : string;
  message_type : string;
  is_read : bool;
  created_at : Z;                  (* microseconds since the epoch, UTC *)
}.

Definition set_is_read (b : bool) (m : Message) : Message :=
  mkMessage (msg_id m) (sender_id m) (recipients m) (content m)
            (message_type m) b (created_at m).

Definition set_recipients (r : gset nat) (m : Message) : Message :=
  mkMessage (msg_id m) (sender_id m) r (content m)
            (message_type m) (is_read m) (created_at m).

(** ** Utils *)

Definition colors : list string :=
  ["dark-teal"; "dark-cyan"; "golden-orange";
   "rusty-spice"; "oxidized-iron"; "brown-red"].

Definition get_user_color (uid : nat) : string :=
  "bg-" +:+ default "" (colors !! (uid mod length colors)%nat).

(** The initials expression that the views and the publisher repeat:
    [f"{u.first_name[:1]}{u.last_name[:1]}".upper()
       if u.first_name and u.last_name else u.username[:2].upper()]. *)
Definition initials (u : User) : string :=
  if Str.truthy (first_name u) && Str.truthy (last_name u)
  then Str.upper (Str.take 1 (first_name u) +:+ Str.take 1 (last_name u))
  else Str.upper (Str.take 2 (username u)).

(** ** The database *)

(** A row of the user table; the primary key is the key of the table. *)
Record UserRow := mkUserRow {
  row_username : string;
  row_first_name : string;
  row_last_name : string;
}.

Record Store := mkStore {
  users : gmap nat UserRow;
  employees : gmap nat EmployeeProfile;   (* [EmployeeProfile] by user id *)
  messages : list Message;                (* the [Message] table *)
  next_id : nat;                          (* next auto-increment key *)
}.

Definition with_messages (rows : list Message) (s : Store) : Store :=
  mkStore (users s) (employees s) rows (next_id s).

(** [User.objects.get(id=uid)]; [None] stands for [User.DoesNotExist]. *)
Definition User_objects_get (s : Store) (uid : nat) : option User :=
  (λ r, mkUser uid (row_username r) (row_first_name r) (row_last_name r))
    <$> users s !! uid.

(** What the views rely on from the query layer.  [order_by("created_at")]
    returns the rows it is given sorted by creation time; SQL leaves the
    order of rows with equal keys to the engine.  [.first()] returns one
    of the rows of a query, chosen by the default ordering of the model,
    and nothing only when the query has no row. *)
Class Orm := {
  order_by_created_at : list Message → list Message;
  order_by_created_at_perm l : order_by_created_at l ≡ₚ l;
  order_by_created_at_sorted l :
    StronglySorted (λ a b, created_at a ≤ created_at b)
                   (order_by_created_at l);
  first : list Message → option Message;
  first_elem_of l m : first l = Some m → m ∈ l;
  first_None l : first l = None → l = [];
}.

(** Modelled from the spec: the field default of [Message.is_read] is
    declared in [core.models], which is not part of the sources read
    here; the data model gives "a read flag (boolean, defaults false)". *)
Definition is_read_default : bool := false.

(** [msg.save(update_fields=["is_read"])]:
    [UPDATE message SET is_read = .. WHERE id = msg.id]. *)
Definition save_is_read (msg : Message) (rows : list Message) : list Message :=
  (λ r, if bool_decide (msg_id r = msg_id msg)
        then set_is_read (is_read msg) r else r) <$> rows.

(** [message.recipients.add(user)] for the message with key [mid]. *)
Definition recipients_add (mid uid : nat) (rows : list Message) : list Message :=
  (λ r, if bool_decide (msg_id r = mid)
        then set_recipients ({[uid]} ∪ recipients r) r else r) <$> rows.

(** ** Redis setup *)

(** The module-level connection: [REDIS_AVAILABLE] is fixed when the
    module is imported; a call on the client either returns or raises
    ([None]). *)
Record Payload := mkPayload {
  p_type : string;
  p_message_id : nat;
  p_sender_id : nat;
  p_recipient_id : nat;
  p_content : string;
  p_timestamp : Z;
  p_avatar_color : string;
  p_initials : string;
}.

Record Redis := mkRedis {
  REDIS_AVAILABLE : bool;
  client_exists : string → option nat;
  client_publish : string → Payload → option nat;
}.

Definition redis_exists (r : Redis) (key : string) : bool :=
  if negb (REDIS_AVAILABLE r) then false
  else match client_exists r key with
       | Some n => negb (n =? 0)%nat
       | None => false
       end.

(** Returns nothing; the result here is the list of publications that
    reached the broker. *)
Definition redis_publish (r : Redis) (channel : string) (payload : Payload)
  : list (string * Payload) :=
  if negb (REDIS_AVAILABLE r) then []
  else match client_publish r channel payload with
       | Some _ => [(channel, payload)]
       | None => []
       end.

(** ** Redis publisher *)

Definition publish_message (r : Redis) (message : Message)
    (sender recipient : User) : list (string * Payload) :=
  let payload :=
    mkPayload "direct_message" (msg_id message) (user_id sender)
              (user_id recipient) (content message) (created_at message)
              (get_user_color (user_id sender)) (initials sender) in
  redis_publish r ("user_" +:+ pretty (user_id recipient)) payload
  ++ redis_publish r ("user_" +:+ pretty (user_id sender)) payload.

(** ** APIs *)

(** One entry of ["messages"] in the conversation response.  The fields
    that only render the row again (full name, ISO timestamp, date) are
    represented by the row values they are computed from. *)
Record MessageView := mkMessageView {
  mv_id : nat;
  mv_content : string;
  mv_sender_id : nat;
  mv_initials : string;
  mv_avatar_color : string;
  mv_timestamp : Z;
  mv_is_sent : bool;
  mv_is_read : bool;
}.

Record OtherUser := mkOtherUser {
  ou_id : nat;
  ou_initials : string;
  ou_avatar_color : string;
  ou_job_position : string;
  ou_department : string;
  ou_is_online : bool;
}.

Inductive ConversationResponse :=
  | ConversationOk (messages_data : list MessageView) (other_user : OtherUser)
  | ConversationNotFound.                     (* 404 "User not found" *)

(** The two [Q] objects of the conversation query, joined by [|]. *)
Definition conversation_q (current other : nat) (m : Message) : bool :=
  (bool_decide (sender_id m = current) && bool_decide (other ∈ recipients m)
     && bool_decide (message_type m = "direct"))
  || (bool_decide (sender_id m = other) && bool_decide (current ∈ recipients m)
     && bool_decide (message_type m = "direct")).

(** The body of [for msg in messages]: the rows of the table are
    threaded through, the second component is [None] when [msg.sender]
    raises [User.DoesNotExist]. *)
Fixpoint conversation_loop (s : Store) (current_user : User)
    (msgs rows : list Message) : list Message * option (list MessageView) :=
  match msgs with
  | [] => (rows, Some [])
  | msg :: rest =>
      let is_sent := bool_decide (sender_id msg = user_id current_user) in
      let flip := negb is_sent && negb (is_read msg) in
      let msg := if flip then set_is_read true msg else msg in
      let rows := if flip then save_is_read msg rows else rows in
      match User_objects_get s (sender_id msg) with
      | None => (rows, None)
      | Some sender =>
          let view :=
            mkMessageView (msg_id msg) (content msg) (user_id sender)
              (initials sender) (get_user_color (user_id sender))
              (created_at msg) is_sent (is_read msg) in
          let '(rows, data) := conversation_loop s current_user rest rows in
          (rows, (view ::.) <$> data)
      end
  end.

(** The evaluated queryset [messages] of the view. *)
Definition conversation_messages `{Orm} (s : Store) (current other : nat)
  : list Message :=
  order_by_created_at (filter (λ m, conversation_q current other m) (messages s)).

Definition get_conversation_messages `{Orm} (redis : Redis) (s : Store)
    (current_user : User) (uid : nat) : ConversationResponse * Store :=
  match User_objects_get s uid with
  | None => (ConversationNotFound, s)
  | Some other_user =>
      let msgs :=
        conversation_messages s (user_id current_user) (user_id other_user) in
      match conversation_loop s current_user msgs (messages s) with
      | (rows, None) => (ConversationNotFound, with_messages rows s)
      | (rows, Some messages_data) =>
          let employee := employees s !! user_id other_user in
          (ConversationOk messages_data
             (mkOtherUser (user_id other_user) (initials other_user)
                (get_user_color (user_id other_user))
                (match employee with
                 | Some e => job_position e | None => "Team Member" end)
                (match employee with
                 | Some (mkEmployee _ (Some d)) => d
                 | _ => "No Department" end)
                (redis_exists redis
                   ("user_online_" +:+ pretty (user_id other_user)))),
           with_messages rows s)
      end
  end.

(** The JSON object of the request body: ["recipient_id"] is absent
    ([None]) or a number, ["content"] defaults to [""]. *)
Record SendData := mkSendData {
  recipient_id : option nat;
  data_content : string;
}.

Inductive SendResponse :=
  | SendOk (message_id : nat) (timestamp : Z)
  | SendMissingFields                          (* 400 "Missing fields" *)
  | SendRecipientNotFound                      (* 404 "Recipient not found" *)
  | SendError.                                 (* 500, [except Exception] *)

(** [timezone.timedelta(seconds=5)], in microseconds. *)
Definition dedup_window : Z := 5 * 1000000.

Definition dedup_q (sender : nat) (text : string) (cutoff : Z) (m : Message)
  : bool :=
  bool_decide (sender_id m = sender) && bool_decide (content m = text)
  && bool_decide (message_type m = "direct")
  && bool_decide (cutoff ≤ created_at m).

(** [body] is [None] when [json.loads(request.body)] or reading the two
    fields raises.  [now] and [now'] are the two readings of
    [timezone.now()], for the cut-off and for the new row. *)
Definition send_message_api `{Orm} (redis : Redis) (s : Store)
    (request_user : User) (body : option SendData) (now now' : Z)
  : SendResponse * Store * list (string * Payload) :=
  match body with
  | None => (SendError, s, [])
  | Some data =>
      let text := Str.strip (data_content data) in
      match recipient_id data with
      | None | Some O => (SendMissingFields, s, [])
      | Some rid =>
          if negb (Str.truthy text) then (SendMissingFields, s, [])
          else
            match User_objects_get s rid with
            | None => (SendRecipientNotFound, s, [])
            | Some recipient =>
                let cutoff := now - dedup_window in
                let existing :=
                  first (filter (λ m, dedup_q (user_id request_user) text cutoff m)
                                (messages s)) in
                let '(message, s) :=
                  match existing with
                  | Some message =>
                      (message,
                       if bool_decide (user_id recipient ∈ recipients message)
                       then s
                       else with_messages
                              (recipients_add (msg_id message)
                                 (user_id recipient) (messages s)) s)
                  | None =>
                      let message :=
                        mkMessage (next_id s) (user_id request_user) ∅ text
                                  "direct" is_read_default now' in
                      (message,
                       mkStore (users s) (employees s)
                         (recipients_add (msg_id message) (user_id recipient)
                            (messages s ++ [message]))
                         (S (next_id s)))
                  end in
                (SendOk (msg_id message) (created_at message), s,
                 publish_message redis message request_user recipient)
            end
      end
  end.

Definition mark_read_q (uid current : nat) (m : Message) : bool :=
  bool_decide (sender_id m = uid) && bool_decide (current ∈ recipients m)
  && negb (is_read m) && bool_decide (message_type m = "direct").

Inductive MarkReadResponse := MarkReadOk.    (* {"success": True} *)

(** The view for a sender id that the database driver can bind; see
    [mark_as_read_request] for the integer of the URL. *)
Definition mark_as_read_api (s : Store) (current_user : User) (uid : nat)
  : MarkReadResponse * Store :=
  (MarkReadOk,
   with_messages
     ((λ m, if mark_read_q uid (user_id current_user) m
            then set_is_read true m else m) <$> messages s) s).

(** SQLite, the database of the development settings, binds an integer
    query parameter as a signed 64-bit value. *)
Definition sqlite_max_integer : N := 2 ^ 63 - 1.

Inductive MarkReadOutcome :=
  | MarkReadReturns (response : MarkReadResponse)
  | MarkReadRaises.        (* [OverflowError] of the driver: HTTP 500 *)

(** The view as it is routed.  [uid] is the integer of the URL, of any
    size; the filter [sender_id=user_id] hands it to the driver as it
    is, and the view has no handler for the error the driver raises on
    an integer it cannot bind.  Below that limit the view is
    [mark_as_read_api]. *)
Definition mark_as_read_request (s : Store) (current_user : User) (uid : N)
  : MarkReadOutcome * Store :=
  if (sqlite_max_integer <? uid)%N then (MarkReadRaises, s)
  else
    let '(response, s') := mark_as_read_api s current_user (N.to_nat uid) in
    (MarkReadReturns response, s').

Definition unread_q (current : nat) (m : Message) : bool :=
  bool_decide (current ∈ recipients m) && negb (is_read m)
  && bool_decide (message_type m = "direct").

(** The ["unread_count"] of the response; ["success"] is always true. *)
Definition get_unread_count_api (s : Store) (current_user : User) : nat :=
  length (filter (λ m, unread_q (user_id current_user) m) (messages s)).

(** The JSON object of the request body of [start_conversation_api]. *)
Record StartData := mkStartData {
  start_recipient_id : option nat;
}.

Record StartInfo := mkStartInfo {
  si_user_id : nat;
  si_initials : string;
  si_avatar_color : string;
  si_job_position : string;
  si_is_online : bool;
  si_has_existing_conversation : bool;
}.

Inductive StartResponse :=
  | StartOk (info : StartInfo)
  | StartNotFound                        (* 404 "User not found" *)
  | StartRaises.                         (* an exception the view lets through *)

(** [body] is [None] when [json.loads(request.body)] or [data.get]
    raises, which the view does not catch.  [User.objects.get(id=None)]
    is the query [id IS NULL], which no row satisfies. *)
Definition start_conversation_api (redis : Redis) (s : Store)
    (request_user : User) (body : option StartData) : StartResponse :=
  match body with
  | None => StartRaises
  | Some data =>
      match start_recipient_id data ≫= User_objects_get s with
      | None => StartNotFound
      | Some recipient =>
          let employee := employees s !! user_id recipient in
          let existing :=
            negb (bool_decide
                    (filter (λ m, conversation_q (user_id request_user)
                                    (user_id recipient) m) (messages s) = [])) in
          StartOk
            (mkStartInfo (user_id recipient) (initials recipient)
               (get_user_color (user_id recipient))
               (match employee with
                | Some e => job_position e | None => "Team Member" end)
               (redis_exists redis
                  ("user_online_" +:+ pretty (user_id recipient)))
               existing)
      end
  end.

(** The project tables read by [search_users_api]. *)
Record Project := mkProject {
  project_manager : nat;
  project_name : string;
}.

(** A [ProjectMember] row together with the [employee] and
    [employee.user] rows that [select_related("employee__user")] joins
    to it. *)
Record ProjectMember := mkProjectMember {
  member_id : nat;
  member_project : nat;
  member_is_active : bool;
  member_user : User;
  member_email : string;
  member_job_position : string;
}.

Record Projects := mkProjects {
  projects : gmap nat Project;
  project_members : list ProjectMember;  (* in the order the query yields *)
}.

#[global] Instance User_eq_dec : EqDecision User.
Proof. solve_decision. Defined.

#[global] Instance ProjectMember_eq_dec : EqDecision ProjectMember.
Proof. solve_decision. Defined.

Record SearchResult := mkSearchResult {
  sr_id : nat;
  sr_name : string;
  sr_email : string;
  sr_job_position : string;
  sr_project : string;
  sr_is_online : bool;
  sr_avatar_color : string;
}.

(** [project__in=managed_projects, is_active=True] *)
Definition managed_member_q (t : Projects) (current : nat) (m : ProjectMember)
  : bool :=
  match projects t !! member_project m with
  | Some p => bool_decide (project_manager p = current)
  | None => false
  end
  && member_is_active m.

(** The body of [for member in members] for one member: the entry it
    appends, if any.  [get_full_name] is the method of the user model,
    which is declared outside the sources read here. *)
Definition search_entry (get_full_name : User → string) (redis : Redis)
    (t : Projects) (current : nat) (query : string) (member : ProjectMember)
  : option SearchResult :=
  let user := member_user member in
  if bool_decide (user_id user = current) then None
  else if Str.contains query (Str.lower (get_full_name user))
          || Str.contains query (Str.lower (member_email member))
  then Some (mkSearchResult (user_id user) (get_full_name user)
               (member_email member) (member_job_position member)
               (default "" (project_name <$> projects t !! member_project member))
               (redis_exists redis ("user_online_" +:+ pretty (user_id user)))
               (get_user_color (user_id user)))
  else None.

(** The ["results"] of the response; [q] is [request.GET.get("q", "")]. *)
Definition search_users_api (get_full_name : User → string) (redis : Redis)
    (t : Projects) (request_user : User) (q : string) : list SearchResult :=
  let query := Str.lower (Str.strip q) in
  if (String.length query <? 2)%nat then []
  else
    let members :=
      remove_dups
        (filter (λ m, managed_member_q t (user_id request_user) m)
                (project_members t)) in
    take 10
      (omap (search_entry get_full_name redis t (user_id request_user) query)
            members).

(** ** Integrity of the database *)

(** Primary keys are unique and below the auto-increment counter, and the
    [sender] foreign key of every message points to a user. *)
Definition wf_store (s : Store) : Prop :=
  NoDup (msg_id <$> messages s)
  ∧ Forall (λ m, (msg_id m < next_id s)%nat) (messages s)
  ∧ Forall (λ m, is_Some (users s !! sender_id m)) (messages s).

#[global] Instance wf_store_dec s : Decision (wf_store s).
Proof. unfold wf_store. apply _. Defined.

(** ** Notions used to state the properties *)

(** The initials of a user in the words of the specification: the first
    letter of the first name followed by the first letter of the last
    name, uppercased, when both names are non-empty; otherwise the first
    two characters of the username, uppercased. *)
Definition initials_spec (u : User) : string :=
  match first_name u, last_name u with
  | String f _, String l _ => Str.upper (String f (String l EmptyString))
  | _, _ => Str.upper (Str.take 2 (username u))
  end.

(** The keys the loop saves: messages not sent by the viewer and unread. *)
Definition flipped_ids (current : nat) (msgs : list Message) : list nat :=
  msg_id <$>
    filter (λ m, negb (bool_decide (sender_id m = current)) && negb (is_read m))
           msgs.

Definition mark_ids (ids : list nat) (rows : list Message) : list Message :=
  (λ r, if bool_decide (msg_id r ∈ ids) then set_is_read true r else r) <$> rows.

(** How an entry of ["messages"] relates to the row it was built from. *)
Definition view_of (s : Store) (current : nat) (m : Message) (v : MessageView)
  : Prop :=
  mv_id v = msg_id m ∧ mv_content v = content m
  ∧ mv_sender_id v = sender_id m ∧ mv_timestamp v = created_at m
  ∧ mv_is_sent v = bool_decide (sender_id m = current)
  ∧ mv_is_read v = (is_read m || negb (mv_is_sent v))
  ∧ (∀ u, User_objects_get s (sender_id m) = Some u →
          mv_initials v = initials u
          ∧ mv_avatar_color v = get_user_color (sender_id m)).

(** The table after a conversation has been opened by [current]: the
    rows of the conversation that [current] did not send are read. *)
Definition read_on_open (current other : nat) (rows : list Message)
  : list Message :=
  (λ r, if conversation_q current other r
           && negb (bool_decide (sender_id r = current))
        then set_is_read true r else r) <$> rows.

(** [m] is what the dedup query of a send by [sender] with trimmed
    content [text] at time [now] looks for: a [direct] message of the
    same sender and content created no more than five seconds ago. *)
Definition recent_duplicate (sender : nat) (text : string) (now : Z)
    (m : Message) : Prop :=
  sender_id m = sender ∧ content m = text ∧ message_type m = "direct"
  ∧ now - dedup_window ≤ created_at m.

(** The row a send creates when the dedup query finds nothing. *)
Definition new_message (s : Store) (sender rid : nat) (text : string)
    (now' : Z) : Message :=
  mkMessage (next_id s) sender {[rid]} text "direct" is_read_default now'.

(** [m'] is the row [m] with possibly more recipients. *)
Definition grown (m m' : Message) : Prop :=
  msg_id m' = msg_id m ∧ sender_id m' = sender_id m
  ∧ content m' = content m ∧ message_type m' = message_type m
  ∧ is_read m' = is_read m ∧ created_at m' = created_at m
  ∧ recipients m ⊆ recipients m'.

(** [s] consists of whitespace only (or is empty). *)
Fixpoint all_space (s : string) : bool :=
  match s with
  | String c s' => Str.isspace c && all_space s'
  | EmptyString => true
  end.

(** One request of a logged-in user. *)
Inductive step `{Orm} (s : Store) : Store → Prop :=
  | step_send redis (u : User) body now now' :
      is_Some (users s !! user_id u) →
      step s (send_message_api redis s u body now now').1.2
  | step_open redis (u : User) uid :
      step s (get_conversation_messages redis s u uid).2
  | step_mark (u : User) uid :
      step s (mark_as_read_api s u uid).2.

(** ** Query engines *)

(** An engine that sorts with a total preorder [R] refining the order on
    [created_at], and whose [.first()] takes the first row in key order
    (the table is kept in insertion order). *)
Section engine.
Context (R : relation Message) `{!∀ a b, Decision (R a b)}.
Context `{!Transitive R, !Total R}.
Hypothesis R_created : ∀ a b, R a b → created_at a ≤ created_at b.

Lemma engine_sorted l :
  StronglySorted (λ a b, created_at a ≤ created_at b) (merge_sort R l).
Proof.
  pose proof (StronglySorted_merge_sort R l) as Hs.
  induction Hs as [|a l' _ IH Hall]; constructor; [done|].
  eapply Forall_impl; [exact Hall|]. intros b. apply R_created.
Qed.

Lemma engine_first_elem_of (l : list Message) m : head l = Some m → m ∈ l.
Proof. destruct l; intros [= ->]. left. Qed.

Lemma engine_first_None (l : list Message) : head l = None → l = [].
Proof. by destruct l. Qed.

Definition engine : Orm :=
  {| order_by_created_at := merge_sort R;
     order_by_created_at_perm := merge_sort_Permutation R;
     order_by_created_at_sorted := engine_sorted;
     first := head;
     first_elem_of := engine_first_elem_of;
     first_None := engine_first_None |}.
End engine.

(** Rows with equal [created_at] come out by ascending key. *)
Definition key_asc (a b : Message) : Prop :=
  created_at a < created_at b
  ∨ (created_at a = created_at b ∧ (msg_id a ≤ msg_id b)%nat).

(** Rows with equal [created_at] come out by descending key, as when the
    engine walks an index backwards. *)
Definition key_desc (a b : Message) : Prop :=
  created_at a < created_at b
  ∨ (created_at a = created_at b ∧ (msg_id b ≤ msg_id a)%nat).

#[global] Instance key_asc_dec a b : Decision (key_asc a b).
Proof. unfold key_asc. apply _. Defined.
#[global] Instance key_desc_dec a b : Decision (key_desc a b).
Proof. unfold key_desc. apply _. Defined.

#[global] Instance key_asc_trans : Transitive key_asc.
Proof. intros a b c. unfold key_asc. lia. Qed.
#[global] Instance key_asc_total : Total key_asc.
Proof. intros a b. unfold key_asc. lia. Qed.
#[global] Instance key_desc_trans : Transitive key_desc.
Proof. intros a b c. unfold key_desc. lia. Qed.
#[global] Instance key_desc_total : Total key_desc.
Proof. intros a b. unfold key_desc. lia. Qed.

Lemma key_asc_created a b : key_asc a b → created_at a ≤ created_at b.
Proof. unfold key_asc. lia. Qed.
Lemma key_desc_created a b : key_desc a b → created_at a ≤ created_at b.
Proof. unfold key_desc. lia. Qed.

Definition engine_asc : Orm := engine key_asc key_asc_created.
Definition engine_desc : Orm := engine key_desc key_desc_created.

(** ** A database to run the views on *)

Definition ana : User := mkUser 1 "alee" "Ana" "Lee".
Definition jdoe : User := mkUser 2 "jdoe" "" "".

Definition some_users : gmap nat UserRow :=
  <[1%nat := mkUserRow "alee" "Ana" "Lee"]>
    (<[2%nat := mkUserRow "jdoe" "" ""]>
       (<[3%nat := mkUserRow "kim" "Kim" "Oh"]> ∅)).

(** No message yet. *)
Definition store0 : Store := mkStore some_users ∅ [] 1.

(** A broker that could not be reached when the module was imported. *)
Definition redis_down : Redis := mkRedis false (λ _, None) (λ _ _, None).

(** A broker that answers, with nobody online and no subscriber. *)
Definition redis_up : Redis := mkRedis true (λ _, Some 0%nat) (λ _ _, Some 0%nat).

Definition post (E : Orm) (s : Store) (from : User) (to : nat) (text : string)
    (now : Z) : Store :=
  (@send_message_api E redis_up s from
     (Some (mkSendData (Some to) text)) now now).1.2.

(** Ana writes to jdoe. *)
Definition store1 : Store := post engine_asc store0 ana 2 "hi" 0.

(** jdoe answers within the same microsecond. *)
Definition store2 : Store := post engine_asc store1 jdoe 1 "hello" 0.

(** Ana leaves herself a note. *)
Definition store_note : Store := post engine_asc store0 ana 1 "todo" 0.

(** Ana manages project 7, of which jdoe is an active member. *)
Definition some_projects : Projects :=
  mkProjects (<[7%nat := mkProject 1 "Website"]> ∅)
    [mkProjectMember 1 7 true jdoe "jdoe@example.org" "Developer"].

(** A [get_full_name] to run the search with: both names, separated by
    a space, and trimmed. *)
Definition full_name (u : User) : string :=
  Str.strip (first_name u +:+ " " +:+ last_name u).

(** A broker whose every call raises. *)
Definition redis_raising : Redis := mkRedis true (λ _, None) (λ _ _, None).

(** Closed decidable facts about a concrete database, by evaluation. *)
Ltac by_evaluation :=
  match goal with
  | |- ?P => apply (bool_decide_unpack P); vm_compute; exact I
  end.

(** ** Reading the loop of the conversation view *)

Lemma set_is_read_id m : is_read m = true → set_is_read true m = m.
Proof. destruct m; simpl; by intros ->. Qed.

Lemma mark_ids_nil rows : mark_ids [] rows = rows.
Proof.
  unfold mark_ids. rewrite <- (list_fmap_id rows) at 2.
  apply list_fmap_ext; intros i r _. rewrite bool_decide_eq_false_2; [done|].
  apply not_elem_of_nil.
Qed.

Lemma mark_ids_cons m ids rows :
  mark_ids ids (save_is_read (set_is_read true m) rows)
  = mark_ids (msg_id m :: ids) rows.
Proof.
  unfold mark_ids, save_is_read. rewrite <- list_fmap_compose.
  apply list_fmap_ext; intros i r _; simpl.
  destruct (decide (msg_id r = msg_id m)) as [E|E].
  - rewrite (bool_decide_eq_true_2 _ E); simpl.
    rewrite (bool_decide_eq_true_2 (msg_id r ∈ msg_id m :: ids));
      [|rewrite E; left].
    by destruct (bool_decide _).
  - rewrite (bool_decide_eq_false_2 _ E).
    destruct (decide (msg_id r ∈ ids)) as [I|I].
    + rewrite !bool_decide_eq_true_2; [done|by right|done].
    + rewrite !bool_decide_eq_false_2; [done| |done].
      intros [?|?]%elem_of_cons; done.
Qed.

Lemma User_objects_get_is_Some s uid :
  is_Some (users s !! uid) → ∃ u, User_objects_get s uid = Some u ∧ user_id u = uid.
Proof. intros [r Hr]. unfold User_objects_get. rewrite Hr. eauto. Qed.

Lemma User_objects_get_id s uid u :
  User_objects_get s uid = Some u → user_id u = uid ∧ is_Some (users s !! uid).
Proof.
  unfold User_objects_get. destruct (users s !! uid); intros [= <-]; eauto.
Qed.

Lemma User_objects_get_None s uid :
  User_objects_get s uid = None ↔ users s !! uid = None.
Proof. unfold User_objects_get. by destruct (users s !! uid). Qed.

Lemma conversation_loop_ok s cu msgs : ∀ rows,
  Forall (λ m, is_Some (users s !! sender_id m)) msgs →
  ∃ data,
    conversation_loop s cu msgs rows
      = (mark_ids (flipped_ids (user_id cu) msgs) rows, Some data)
    ∧ Forall2 (view_of s (user_id cu)) msgs data.
Proof.
  induction msgs as [|m rest IH]; intros rows Hfk.
  - exists []. simpl. rewrite mark_ids_nil. split; [done|constructor].
  - apply Forall_cons in Hfk as [Hm Hrest].
    apply User_objects_get_is_Some in Hm as (u & Hu & Hid).
    unfold flipped_ids. rewrite filter_cons. cbn [conversation_loop].
    destruct (negb (bool_decide (sender_id m = user_id cu)) && negb (is_read m))
      eqn:Hflip.
    + rewrite decide_True by done.
      change (sender_id (set_is_read true m)) with (sender_id m). rewrite Hu.
      destruct (IH (save_is_read (set_is_read true m) rows) Hrest)
        as (data & -> & Hdata).
      eexists. split.
      * simpl. rewrite mark_ids_cons. reflexivity.
      * constructor; [|done].
        apply andb_prop in Hflip as [Hs Hr].
        repeat split; simpl; try done; try congruence.
        by rewrite Hs, orb_true_r.
    + rewrite decide_False by (by intros []). rewrite Hu.
      destruct (IH rows Hrest) as (data & -> & Hdata).
      eexists. split; [reflexivity|].
      constructor; [|done].
      repeat split; simpl; try done; try congruence.
      destruct (bool_decide _), (is_read m); done.
Qed.

Lemma NoDup_key_inj {A} (f : A → nat) (l : list A) x y :
  NoDup (f <$> l) → x ∈ l → y ∈ l → f x = f y → x = y.
Proof.
  induction l as [|a l IH]; simpl; intros Hnd Hx Hy Hf.
  - by apply elem_of_nil in Hx.
  - apply NoDup_cons in Hnd as [Ha Hnd].
    apply elem_of_cons in Hx as [->|Hx]; apply elem_of_cons in Hy as [->|Hy];
      [done| | |by apply IH].
    + exfalso. apply Ha. rewrite Hf. by apply list_elem_of_fmap_2.
    + exfalso. apply Ha. rewrite <- Hf. by apply list_elem_of_fmap_2.
Qed.

Section conversation.
Context `{O : Orm}.

Lemma elem_of_conversation_messages s cu ou m :
  m ∈ conversation_messages s cu ou
  ↔ m ∈ messages s ∧ conversation_q cu ou m.
Proof.
  unfold conversation_messages.
  rewrite (order_by_created_at_perm _), list_elem_of_filter. tauto.
Qed.

Lemma mark_ids_read_on_open s cu ou :
  NoDup (msg_id <$> messages s) →
  mark_ids (flipped_ids cu (conversation_messages s cu ou)) (messages s)
  = read_on_open cu ou (messages s).
Proof.
  intros Hnd. unfold mark_ids, read_on_open.
  apply Forall_fmap_ext, Forall_forall. intros r Hr.
  destruct (decide (msg_id r ∈ flipped_ids cu (conversation_messages s cu ou)))
    as [Hin|Hin].
  - rewrite (bool_decide_eq_true_2 _ Hin).
    unfold flipped_ids in Hin.
    apply list_elem_of_fmap in Hin as (m & Hid & Hm).
    apply list_elem_of_filter in Hm as [Hflip Hm].
    apply elem_of_conversation_messages in Hm as [Hm Hq].
    assert (r = m) as -> by (by eapply NoDup_key_inj).
    apply andb_prop_elim in Hflip as [Hs _].
    apply Is_true_true in Hq, Hs. by rewrite Hq, Hs.
  - rewrite (bool_decide_eq_false_2 _ Hin).
    destruct (conversation_q cu ou r) eqn:Hq; [|done].
    destruct (bool_decide (sender_id r = cu)) eqn:Hs; [done|]. simpl.
    destruct (is_read r) eqn:Hread; [by rewrite set_is_read_id|].
    exfalso. apply Hin. unfold flipped_ids.
    apply list_elem_of_fmap_2, list_elem_of_filter. split.
    + by rewrite Hs, Hread.
    + apply elem_of_conversation_messages. by rewrite Hq.
Qed.

Lemma get_conversation_ok redis s cu uid :
  wf_store s → is_Some (users s !! uid) →
  ∃ data ou,
    get_conversation_messages redis s cu uid
      = (ConversationOk data ou,
         with_messages (read_on_open (user_id cu) uid (messages s)) s)
    ∧ Forall2 (view_of s (user_id cu))
              (conversation_messages s (user_id cu) uid) data
    ∧ ou_id ou = uid
    ∧ (∀ u, User_objects_get s uid = Some u → ou_initials ou = initials u)
    ∧ ou_is_online ou = redis_exists redis ("user_online_" +:+ pretty uid).
Proof.
  intros (Hnd & _ & Hfk) Hu.
  apply User_objects_get_is_Some in Hu as (u & Hu & Hid).
  unfold get_conversation_messages. rewrite Hu, Hid.
  destruct (conversation_loop_ok s cu
              (conversation_messages s (user_id cu) uid) (messages s))
    as (data & -> & Hdata).
  { apply Forall_forall. intros m [Hm _]%elem_of_conversation_messages.
    revert m Hm. by apply Forall_forall. }
  rewrite mark_ids_read_on_open by done.
  eexists _, _. split; [reflexivity|]. repeat split; try done.
  simpl. congruence.
Qed.

End conversation.

(** ** Conversations *)

Lemma view_of_ids s cu msgs data :
  Forall2 (view_of s cu) msgs data →
  mv_id <$> data = msg_id <$> msgs
  ∧ mv_timestamp <$> data = created_at <$> msgs.
Proof.
  induction 1 as [|m v msgs data Hv _ [IH1 IH2]]; [done|].
  destruct Hv as (Hi & _ & _ & Ht & _). rewrite !fmap_cons. by rewrite Hi, Ht, IH1, IH2.
Qed.

Lemma conversation_q_sym a b m : conversation_q a b m = conversation_q b a m.
Proof. unfold conversation_q. apply orb_comm. Qed.

Lemma conversation_q_spec a b m :
  conversation_q a b m
  ↔ message_type m = "direct"
    ∧ ((sender_id m = a ∧ b ∈ recipients m)
       ∨ (sender_id m = b ∧ a ∈ recipients m)).
Proof.
  unfold conversation_q.
  rewrite orb_True, !andb_True, !bool_decide_spec. tauto.
Qed.

Lemma conversation_messages_sym `{Orm} s a b :
  conversation_messages s a b = conversation_messages s b a.
Proof.
  unfold conversation_messages. f_equal.
  apply list_filter_iff. intros m. by rewrite conversation_q_sym.
Qed.

Lemma conversation_messages_NoDup `{Orm} s a b :
  NoDup (msg_id <$> messages s) →
  NoDup (msg_id <$> conversation_messages s a b).
Proof.
  intros Hnd. unfold conversation_messages.
  rewrite (order_by_created_at_perm _).
  apply (sublist_NoDup _ _ Hnd), fmap_sublist, sublist_filter.
Qed.

Lemma StronglySorted_fmap_inv {A} (f : A → Z) (l : list A) :
  StronglySorted Z.le (f <$> l) → StronglySorted (λ x y, f x ≤ f y) l.
Proof.
  induction l as [|x l IH]; [constructor|].
  rewrite fmap_cons. intros [Hx Hs]%StronglySorted_cons.
  constructor; [by apply IH|]. by apply (Forall_fmap f) in Hx.
Qed.

Lemma conversation_messages_perm (E1 E2 : Orm) s a b :
  @conversation_messages E1 s a b ≡ₚ @conversation_messages E2 s b a.
Proof.
  unfold conversation_messages.
  rewrite (@order_by_created_at_perm E1), (@order_by_created_at_perm E2).
  erewrite list_filter_iff; [done|].
  intros m. by rewrite conversation_q_sym.
Qed.

Lemma conversation_created_sorted `{Orm} s a b :
  StronglySorted Z.le (created_at <$> conversation_messages s a b).
Proof.
  apply (StronglySorted_fmap created_at
           (λ x y, created_at x ≤ created_at y)); [done|].
  apply order_by_created_at_sorted.
Qed.

Lemma conversation_timestamps (E1 E2 : Orm) s a b :
  created_at <$> @conversation_messages E1 s a b
  = created_at <$> @conversation_messages E2 s b a.
Proof.
  apply (StronglySorted_unique Z.le);
    [apply conversation_created_sorted..|].
  apply fmap_Permutation, conversation_messages_perm.
Qed.

(** C3 (as amended): for two existing users [a] and [b] and every
    consistent store, the conversation fetched by [a] with [b] and the
    one fetched by [b] with [a] both succeed and
    - list the same set of messages, each once: exactly the [direct]
      rows whose sender is one of the two users and which have the other
      one as a recipient;
    - are each sorted by creation time ascending, so that the two
      sequences of creation times are equal.
    An [Orm] fixes the order of rows with equal creation time for one
    query; the engine may order the ties of the two queries differently,
    which is why the two calls are given an ordering each. *)
Theorem conversation_symmetric (E1 E2 : Orm) redis s (a b : User) :
  wf_store s →
  is_Some (users s !! user_id a) → is_Some (users s !! user_id b) →
  ∃ dab oub sab dba oua sba,
    @get_conversation_messages E1 redis s a (user_id b)
      = (ConversationOk dab oub, sab)
    ∧ @get_conversation_messages E2 redis s b (user_id a)
      = (ConversationOk dba oua, sba)
    ∧ mv_id <$> dab ≡ₚ mv_id <$> dba
    ∧ NoDup (mv_id <$> dab)
    ∧ (∀ i, i ∈ mv_id <$> dab
        ↔ ∃ m, m ∈ messages s ∧ msg_id m = i
             ∧ message_type m = "direct"
             ∧ ((sender_id m = user_id a ∧ user_id b ∈ recipients m)
                ∨ (sender_id m = user_id b ∧ user_id a ∈ recipients m)))
    ∧ StronglySorted (λ v w, mv_timestamp v ≤ mv_timestamp w) dab
    ∧ StronglySorted (λ v w, mv_timestamp v ≤ mv_timestamp w) dba
    ∧ mv_timestamp <$> dab = mv_timestamp <$> dba.
Proof.
  intros Hwf Ha Hb.
  destruct (@get_conversation_ok E1 redis s a (user_id b) Hwf Hb)
    as (dab & oub & Eab & Vab & _).
  destruct (@get_conversation_ok E2 redis s b (user_id a) Hwf Ha)
    as (dba & oua & Eba & Vba & _).
  apply view_of_ids in Vab as [Iab Tab], Vba as [Iba Tba].
  eexists dab, oub, _, dba, oua, _. split; [exact Eab|]. split; [exact Eba|].
  split; [|split; [|split; [|split; [|split]]]].
  - rewrite Iab, Iba. apply fmap_Permutation, conversation_messages_perm.
  - rewrite Iab. apply conversation_messages_NoDup, Hwf.
  - intros i. rewrite Iab, list_elem_of_fmap. split.
    + intros (m & -> & [Hm Hq]%elem_of_conversation_messages).
      apply conversation_q_spec in Hq as [Ht Hq]. by exists m.
    + intros (m & Hm & <- & Hq). exists m. split; [done|].
      apply elem_of_conversation_messages. split; [done|].
      by apply conversation_q_spec.
  - apply StronglySorted_fmap_inv. rewrite Tab.
    apply conversation_created_sorted.
  - apply StronglySorted_fmap_inv. rewrite Tba.
    apply conversation_created_sorted.
  - rewrite Tab, Tba. apply conversation_timestamps.
Qed.

(** Ana and jdoe in [store2], the first call answered by an engine that
    returns equal creation times by ascending key, the second by one
    that returns them by descending key. *)
Lemma conversation_symmetric_witness :
  ∃ dab oub sab dba oua sba,
    @get_conversation_messages engine_asc redis_down store2 ana (user_id jdoe)
      = (ConversationOk dab oub, sab)
    ∧ @get_conversation_messages engine_desc redis_down store2 jdoe
        (user_id ana)
      = (ConversationOk dba oua, sba)
    ∧ mv_id <$> dab ≡ₚ mv_id <$> dba
    ∧ NoDup (mv_id <$> dab)
    ∧ (∀ i, i ∈ mv_id <$> dab
        ↔ ∃ m, m ∈ messages store2 ∧ msg_id m = i
             ∧ message_type m = "direct"
             ∧ ((sender_id m = user_id ana ∧ user_id jdoe ∈ recipients m)
                ∨ (sender_id m = user_id jdoe ∧ user_id ana ∈ recipients m)))
    ∧ StronglySorted (λ v w, mv_timestamp v ≤ mv_timestamp w) dab
    ∧ StronglySorted (λ v w, mv_timestamp v ≤ mv_timestamp w) dba
    ∧ mv_timestamp <$> dab = mv_timestamp <$> dba.
Proof.
  apply (conversation_symmetric engine_asc engine_desc redis_down store2
           ana jdoe).
  - by_evaluation.
  - by_evaluation.
  - by_evaluation.
Defined.

(** C3 as stated fails: the two results need not present the messages
    in the same order.  In [store2] the two messages of Ana and jdoe
    were created in the same microsecond; when the query of Ana returns
    such rows by ascending key and the query of jdoe by descending key,
    Ana is shown messages 1, 2 and jdoe messages 2, 1. *)
Lemma conversation_order_counterexample :
  ¬ (∀ (E1 E2 : Orm) redis s (a b : User) dab oub sab dba oua sba,
       wf_store s →
       is_Some (users s !! user_id a) → is_Some (users s !! user_id b) →
       @get_conversation_messages E1 redis s a (user_id b)
         = (ConversationOk dab oub, sab) →
       @get_conversation_messages E2 redis s b (user_id a)
         = (ConversationOk dba oua, sba) →
       mv_id <$> dab = mv_id <$> dba).
Proof.
  intros Hclaim.
  destruct (@get_conversation_messages engine_asc redis_down store2 ana
              (user_id jdoe)) as [[dab oub|] sab] eqn:Eab;
    [|by vm_compute in Eab].
  destruct (@get_conversation_messages engine_desc redis_down store2 jdoe
              (user_id ana)) as [[dba oua|] sba] eqn:Eba;
    [|by vm_compute in Eba].
  pose proof (Hclaim engine_asc engine_desc redis_down store2 ana jdoe
                dab oub sab dba oua sba
                ltac:(by_evaluation) ltac:(by_evaluation) ltac:(by_evaluation)
                Eab Eba) as Hsame.
  vm_compute in Eab, Eba.
  injection Eab as <- _ _. injection Eba as <- _ _.
  vm_compute in Hsame. discriminate.
Qed.

(** C4 (as amended): for every viewer and existing other user, on a
    consistent store, the conversation is returned with its messages
    sorted by creation time ascending.  The view orders by [created_at]
    alone, so the order among messages with equal creation time is
    whatever the query engine yields. *)
Theorem conversation_sorted `{Orm} redis s cu uid :
  wf_store s → is_Some (users s !! uid) →
  ∃ data ou s',
    get_conversation_messages redis s cu uid = (ConversationOk data ou, s')
    ∧ StronglySorted (λ v w, mv_timestamp v ≤ mv_timestamp w) data.
Proof.
  intros Hwf Hu.
  destruct (get_conversation_ok redis s cu uid Hwf Hu)
    as (data & ou & E & V & _).
  eexists data, ou, _. split; [exact E|].
  apply view_of_ids in V as [_ T].
  apply StronglySorted_fmap_inv. rewrite T.
  apply (StronglySorted_fmap created_at
           (λ a b, created_at a ≤ created_at b)); [done|].
  apply order_by_created_at_sorted.
Qed.

Lemma conversation_sorted_witness :
  ∃ data ou s',
    @get_conversation_messages engine_desc redis_down store2 ana 2
      = (ConversationOk data ou, s')
    ∧ StronglySorted (λ v w, mv_timestamp v ≤ mv_timestamp w) data.
Proof.
  apply (@conversation_sorted engine_desc redis_down store2 ana 2%nat).
  - by_evaluation.
  - by_evaluation.
Defined.

(** With an engine that returns rows of equal [created_at] by ascending
    key, the queryset of the view is in the order C4 describes. *)
Lemma conversation_messages_engine_asc s a b :
  StronglySorted key_asc (@conversation_messages engine_asc s a b).
Proof. apply (StronglySorted_merge_sort key_asc). Qed.

(** C4 as stated fails: with an engine that returns rows of equal
    [created_at] by descending key, the conversation of Ana and jdoe in
    [store2] (two messages created in the same microsecond) lists
    message 2 before message 1. *)
Lemma conversation_ties_counterexample :
  ¬ (∀ (E : Orm) redis s cu uid data ou s',
       wf_store s →
       @get_conversation_messages E redis s cu uid
         = (ConversationOk data ou, s') →
       StronglySorted
         (λ v w, mv_timestamp v < mv_timestamp w
                 ∨ (mv_timestamp v = mv_timestamp w ∧ (mv_id v ≤ mv_id w)%nat))
         data).
Proof.
  intros Hclaim.
  pose proof (Hclaim engine_desc redis_down store2 ana 2%nat) as Hc.
  destruct (@get_conversation_messages engine_desc redis_down store2 ana 2)
    as [[data ou|] s'] eqn:E; [|by vm_compute in E].
  specialize (Hc data ou s' ltac:(by_evaluation) eq_refl).
  vm_compute in E. injection E as <- _ _.
  apply StronglySorted_cons in Hc as [Hc _].
  apply Forall_cons in Hc as [Hc _]. simpl in Hc. lia.
Qed.

(** ** Read state *)

Lemma unread_q_spec cu m :
  unread_q cu m
  ↔ cu ∈ recipients m ∧ is_read m = false ∧ message_type m = "direct".
Proof.
  unfold unread_q. rewrite !andb_True, !bool_decide_spec.
  destruct (is_read m); simpl; intuition congruence.
Qed.

Lemma unread_q_set_is_read cu m : unread_q cu (set_is_read true m) = false.
Proof. unfold unread_q. simpl. by rewrite andb_false_r. Qed.

(** Opening the conversation with [a] leaves [b] with the unread
    messages of the other senders. *)
Lemma unread_after_open a b rows :
  a ≠ b →
  filter (λ m, unread_q b m) (read_on_open b a rows)
  = filter (λ m, unread_q b m && negb (bool_decide (sender_id m = a))) rows.
Proof.
  intros Hab. unfold read_on_open.
  induction rows as [|r rows IH]; [done|].
  rewrite fmap_cons, !filter_cons, IH. clear IH.
  destruct (conversation_q b a r && negb (bool_decide (sender_id r = b)))
    eqn:Hflip.
  - rewrite unread_q_set_is_read.
    apply andb_prop in Hflip as [Hq Hs].
    apply negb_true_iff, bool_decide_eq_false in Hs.
    apply Is_true_true, conversation_q_spec in Hq as (_ & [[? _]|[Hq _]]);
      [done|].
    rewrite (bool_decide_eq_true_2 _ Hq), andb_false_r.
    rewrite !decide_False by (by intros []). done.
  - destruct (unread_q b r) eqn:Hu; [|done]. simpl.
    destruct (decide (sender_id r = a)) as [Hs|Hs].
    + exfalso. apply Is_true_true, unread_q_spec in Hu as (Hin & _ & Ht).
      assert (conversation_q b a r) as Hq
        by (apply conversation_q_spec; auto).
      apply Is_true_true in Hq. rewrite Hq in Hflip. simpl in Hflip.
      apply negb_false_iff, bool_decide_eq_true in Hflip. congruence.
    + by rewrite (bool_decide_eq_false_2 _ Hs).
Qed.

(** C5 (as amended): when [b] opens the conversation with an existing
    user [a] other than [b] itself, the call succeeds; every returned
    message that [b] did not send is reported read; every row of the
    conversation that [b] did not send is stored with its read flag set;
    afterwards no unread [direct] message from [a] to [b] is left, and
    the unread count of [b] is the number of messages that were unread
    from the other senders. *)
Theorem conversation_marks_read `{Orm} redis s (b : User) (a : nat) :
  wf_store s → is_Some (users s !! a) → a ≠ user_id b →
  ∃ data ou s',
    get_conversation_messages redis s b a = (ConversationOk data ou, s')
    ∧ Forall (λ v, mv_is_sent v = false → mv_is_read v = true) data
    ∧ (∀ m, m ∈ messages s → conversation_q (user_id b) a m →
            sender_id m ≠ user_id b → set_is_read true m ∈ messages s')
    ∧ (∀ m, m ∈ messages s' → unread_q (user_id b) m → sender_id m ≠ a)
    ∧ get_unread_count_api s' b
      = length (filter (λ m, unread_q (user_id b) m
                             && negb (bool_decide (sender_id m = a)))
                       (messages s)).
Proof.
  intros Hwf Ha Hab.
  destruct (get_conversation_ok redis s b a Hwf Ha)
    as (data & ou & E & V & _).
  eexists data, ou, _. split; [exact E|]. simpl.
  pose proof (unread_after_open a (user_id b) (messages s) Hab) as Hunread.
  repeat split.
  - clear E. induction V as [|m v msgs data Hv _ IH]; constructor; [|done].
    destruct Hv as (_ & _ & _ & _ & _ & Hr & _). intros Hs.
    by rewrite Hr, Hs, orb_true_r.
  - intros m Hm Hq Hs. unfold read_on_open.
    apply list_elem_of_fmap. exists m. split; [|done].
    apply Is_true_true in Hq. rewrite Hq.
    by rewrite (bool_decide_eq_false_2 _ Hs).
  - intros m Hm Hu Hs.
    assert (m ∈ filter (λ m, unread_q (user_id b) m)
                  (read_on_open (user_id b) a (messages s))) as Hin
      by (by apply list_elem_of_filter).
    rewrite Hunread in Hin. apply list_elem_of_filter in Hin as [Hin _].
    apply andb_prop_elim in Hin as [_ Hin].
    apply negb_prop_elim in Hin. apply Hin. by apply bool_decide_pack.
  - unfold get_unread_count_api. simpl. by rewrite Hunread.
Qed.

Lemma conversation_marks_read_witness :
  ∃ data ou s',
    @get_conversation_messages engine_asc redis_down store2 jdoe 1
      = (ConversationOk data ou, s')
    ∧ Forall (λ v, mv_is_sent v = false → mv_is_read v = true) data
    ∧ (∀ m, m ∈ messages store2 → conversation_q (user_id jdoe) 1 m →
            sender_id m ≠ user_id jdoe → set_is_read true m ∈ messages s')
    ∧ (∀ m, m ∈ messages s' → unread_q (user_id jdoe) m → sender_id m ≠ 1%nat)
    ∧ get_unread_count_api s' jdoe
      = length (filter (λ m, unread_q (user_id jdoe) m
                             && negb (bool_decide (sender_id m = 1%nat)))
                       (messages store2)).
Proof.
  apply (@conversation_marks_read engine_asc redis_down store2 jdoe 1%nat).
  - by_evaluation.
  - by_evaluation.
  - simpl. lia.
Defined.

(** C5 as stated (any existing [a], also [a = b]) fails: a message a
    user sent to herself is never flipped by her own conversation view,
    which skips the messages the viewer sent.  After Ana opens the
    conversation with herself in [store_note], her note is still an
    unread message from Ana to Ana. *)
Lemma conversation_self_counterexample :
  ¬ (∀ (E : Orm) redis s (b : User) (a : nat),
       wf_store s → is_Some (users s !! a) →
       ∃ data ou s',
         @get_conversation_messages E redis s b a
           = (ConversationOk data ou, s')
         ∧ Forall (λ v, mv_is_sent v = false → mv_is_read v = true) data
         ∧ (∀ m, m ∈ messages s' → unread_q (user_id b) m → sender_id m ≠ a)).
Proof.
  intros Hclaim.
  destruct (Hclaim engine_asc redis_down store_note ana 1%nat
              ltac:(by_evaluation) ltac:(by_evaluation))
    as (data & ou & s' & E & _ & Hnone).
  vm_compute in E. injection E as _ _ <-.
  refine (Hnone (mkMessage 1 1 {[1%nat]} "todo" "direct" false 0) _ _ eq_refl).
  - vm_compute. left.
  - by_evaluation.
Qed.

Lemma mark_read_q_set_is_read a b m :
  mark_read_q a b (set_is_read true m) = false.
Proof. unfold mark_read_q. simpl. by rewrite andb_false_r. Qed.

Lemma with_messages_id s : with_messages (messages s) s = s.
Proof. by destruct s. Qed.

Lemma with_messages_twice rows rows' s :
  with_messages rows (with_messages rows' s) = with_messages rows s.
Proof. done. Qed.

Lemma mark_as_read_idempotent_rows s (b : User) (a : nat) :
  (mark_as_read_api (mark_as_read_api s b a).2 b a).2
  = (mark_as_read_api s b a).2.
Proof.
  unfold mark_as_read_api. simpl. rewrite with_messages_twice.
  f_equal. rewrite <- list_fmap_compose.
  apply list_fmap_ext; intros i m _; simpl.
  destruct (mark_read_q a (user_id b) m) eqn:Hq.
  - by rewrite mark_read_q_set_is_read.
  - by rewrite Hq.
Qed.

(** C6: for every viewer [b], user id [a] and store, marking the
    messages from [a] read a second time returns the same response and
    leaves the store exactly as the first call left it. *)
Theorem mark_as_read_idempotent s (b : User) (a : nat) :
  mark_as_read_api (mark_as_read_api s b a).2 b a = mark_as_read_api s b a.
Proof.
  unfold mark_as_read_api. simpl. f_equal. rewrite with_messages_twice.
  f_equal. rewrite <- list_fmap_compose.
  apply list_fmap_ext; intros i m _; simpl.
  destruct (mark_read_q a (user_id b) m) eqn:Hq.
  - by rewrite mark_read_q_set_is_read.
  - by rewrite Hq.
Qed.

(** Marking read below the limit of the driver: success, and no change
    when every [direct] message from that id to the viewer is read. *)
Lemma mark_as_read_always_succeeds s (b : User) (a : nat) :
  (mark_as_read_api s b a).1 = MarkReadOk
  ∧ ((∀ m, m ∈ messages s → sender_id m = a → user_id b ∈ recipients m →
           message_type m = "direct" → is_read m = true) →
     (mark_as_read_api s b a).2 = s).
Proof.
  split; [done|]. intros Hread. unfold mark_as_read_api. simpl.
  etrans; [|apply with_messages_id]. f_equal.
  etrans; [|apply list_fmap_id].
  apply Forall_fmap_ext, Forall_forall. intros m Hm. unfold id.
  destruct (mark_read_q a (user_id b) m) eqn:Hq; [|done].
  unfold mark_read_q in Hq.
  apply andb_prop in Hq as [[[Hs Hr]%andb_prop Hu]%andb_prop Ht].
  apply bool_decide_eq_true in Hs, Hr, Ht.
  rewrite (Hread m Hm Hs Hr Ht) in Hu. done.
Qed.

(** C10 (as amended): for every viewer and every user id that the
    database driver can bind (at most 2^63 - 1), whether or not it names
    a user, marking read answers with success, never with "not found";
    if every [direct] message from that id to the viewer is already read
    (in particular if there is none), the store is left as it was. *)
Theorem mark_as_read_request_succeeds s (b : User) (uid : N) :
  (uid ≤ sqlite_max_integer)%N →
  (mark_as_read_request s b uid).1 = MarkReadReturns MarkReadOk
  ∧ ((∀ m, m ∈ messages s → sender_id m = N.to_nat uid →
           user_id b ∈ recipients m →
           message_type m = "direct" → is_read m = true) →
     (mark_as_read_request s b uid).2 = s).
Proof.
  intros Hfits. unfold mark_as_read_request.
  rewrite (proj2 (N.ltb_ge _ _) Hfits).
  destruct (mark_as_read_always_succeeds s b (N.to_nat uid)) as [Hok Hsame].
  destruct (mark_as_read_api s b (N.to_nat uid)) as [response s'].
  simpl in *. by rewrite Hok.
Qed.

(** On [store2] nobody has id 99, and marking the messages of 99 read
    for jdoe succeeds and changes nothing. *)
Lemma mark_as_read_request_succeeds_witness :
  (mark_as_read_request store2 jdoe 99).1 = MarkReadReturns MarkReadOk
  ∧ users store2 !! 99%nat = None
  ∧ (mark_as_read_request store2 jdoe 99).2 = store2.
Proof.
  destruct (mark_as_read_request_succeeds store2 jdoe 99) as [Hok Hsame].
  - by vm_compute.
  - split; [exact Hok|]. split; [by vm_compute|].
    apply Hsame.
    assert (Forall (λ m, sender_id m ≠ N.to_nat 99) (messages store2)) as Hall
      by by_evaluation.
    intros m Hm Hs. by destruct (proj1 (Forall_forall _ _) Hall m Hm).
Defined.

(** Marking read twice is marking read once, also on the integer of the
    URL. *)
Lemma mark_as_read_request_idempotent s (b : User) (uid : N) :
  mark_as_read_request (mark_as_read_request s b uid).2 b uid
  = mark_as_read_request s b uid.
Proof.
  unfold mark_as_read_request.
  destruct (sqlite_max_integer <? uid)%N; [done|].
  pose proof (mark_as_read_idempotent_rows s b (N.to_nat uid)) as Hrows.
  destruct (mark_as_read_api s b (N.to_nat uid)) as [r s'].
  cbn [snd] in *.
  destruct (mark_as_read_api s' b (N.to_nat uid)) as [r' s''].
  cbn [snd] in *. rewrite Hrows. by destruct r, r'.
Qed.

(** C10 as stated (every user id) fails: the URL admits any integer, and
    for the id 2^63 the driver cannot bind the parameter of the update;
    the view raises instead of answering success. *)
Lemma mark_as_read_overflow_counterexample :
  ¬ (∀ s (b : User) (uid : N),
       (mark_as_read_request s b uid).1 = MarkReadReturns MarkReadOk).
Proof.
  intros Hclaim. specialize (Hclaim store0 ana (2 ^ 63)%N).
  vm_compute in Hclaim. discriminate.
Qed.

(** ** Sending *)

Lemma dedup_q_spec sender text now m :
  dedup_q sender text (now - dedup_window) m
  ↔ recent_duplicate sender text now m.
Proof.
  unfold dedup_q, recent_duplicate.
  rewrite !andb_True, !bool_decide_spec. tauto.
Qed.

Lemma truthy_strip_nonempty text : text ≠ "" → Str.truthy text = true.
Proof. by destruct text. Qed.

Lemma set_recipients_id m : set_recipients (recipients m) m = m.
Proof. by destruct m. Qed.

Lemma recipients_add_fresh mid uid rows :
  Forall (λ m, msg_id m ≠ mid) rows → recipients_add mid uid rows = rows.
Proof.
  intros Hall. unfold recipients_add.
  etrans; [|apply list_fmap_id].
  apply Forall_fmap_ext. eapply Forall_impl; [exact Hall|].
  intros m Hm. simpl. by rewrite (bool_decide_eq_false_2 _ Hm).
Qed.

Lemma recipients_add_split e uid rows :
  NoDup (msg_id <$> rows) → e ∈ rows →
  ∃ l1 l2,
    rows = l1 ++ e :: l2
    ∧ recipients_add (msg_id e) uid rows
      = l1 ++ set_recipients ({[uid]} ∪ recipients e) e :: l2
    ∧ Forall (λ m, msg_id m ≠ msg_id e) (l1 ++ l2).
Proof.
  intros Hnd (l1 & l2 & ->)%list_elem_of_split.
  exists l1, l2. split; [done|].
  assert (Forall (λ m, msg_id m ≠ msg_id e) (l1 ++ l2)) as Hne.
  { rewrite fmap_app, fmap_cons in Hnd.
    apply NoDup_app in Hnd as (_ & H1 & [H2 _]%NoDup_cons).
    apply Forall_app. split; apply Forall_forall; intros m Hm Heq.
    - apply (H1 (msg_id m)); [by apply list_elem_of_fmap_2|].
      rewrite Heq. left.
    - apply H2. rewrite <- Heq. by apply list_elem_of_fmap_2. }
  split; [|done].
  apply Forall_app in Hne as [Hl1 Hl2].
  unfold recipients_add. rewrite fmap_app, fmap_cons.
  fold (recipients_add (msg_id e) uid l1).
  fold (recipients_add (msg_id e) uid l2).
  rewrite !recipients_add_fresh by done.
  by rewrite bool_decide_eq_true_2.
Qed.

Lemma recipients_add_new s m uid :
  Forall (λ r, (msg_id r < next_id s)%nat) (messages s) →
  msg_id m = next_id s → recipients m = ∅ →
  recipients_add (next_id s) uid (messages s ++ [m])
  = messages s ++ [set_recipients {[uid]} m].
Proof.
  intros Hlt Hid Hempty. unfold recipients_add. rewrite fmap_app.
  fold (recipients_add (next_id s) uid (messages s)).
  rewrite recipients_add_fresh.
  - simpl. rewrite bool_decide_eq_true_2 by done.
    by rewrite Hempty, (right_id_L ∅ (∪)).
  - eapply Forall_impl; [exact Hlt|]. simpl. lia.
Qed.

Section send.
Context `{O : Orm}.

(** The two ways a valid send ends: on a recent duplicate [e], whose
    recipient set gains the recipient, or on a fresh row. *)
Lemma send_valid_cases redis s (u : User) rid raw now now' :
  wf_store s → rid ≠ 0%nat → is_Some (users s !! rid) → Str.strip raw ≠ "" →
  ∃ pub,
    (∃ e l1 l2,
        e ∈ messages s
        ∧ recent_duplicate (user_id u) (Str.strip raw) now e
        ∧ messages s = l1 ++ e :: l2
        ∧ Forall (λ m, msg_id m ≠ msg_id e) (l1 ++ l2)
        ∧ send_message_api redis s u (Some (mkSendData (Some rid) raw)) now now'
          = (SendOk (msg_id e) (created_at e),
             with_messages
               (l1 ++ set_recipients ({[rid]} ∪ recipients e) e :: l2) s,
             pub))
    ∨ ((∀ m, m ∈ messages s →
             ¬ recent_duplicate (user_id u) (Str.strip raw) now m)
       ∧ send_message_api redis s u (Some (mkSendData (Some rid) raw)) now now'
         = (SendOk (next_id s) now',
            mkStore (users s) (employees s)
              (messages s
                 ++ [new_message s (user_id u) rid (Str.strip raw) now'])
              (S (next_id s)),
            pub)).
Proof.
  intros (Hnd & Hlt & _) Hrid Hu Htext.
  apply User_objects_get_is_Some in Hu as (r & Hr & Hid).
  unfold send_message_api. simpl.
  destruct rid as [|rid']; [done|].
  rewrite (truthy_strip_nonempty _ Htext). simpl. rewrite Hr, Hid.
  destruct (first _) as [e|] eqn:Hfirst.
  - apply first_elem_of, list_elem_of_filter in Hfirst as [He Hin].
    apply dedup_q_spec in He.
    destruct (recipients_add_split e (S rid') (messages s) Hnd Hin)
      as (l1 & l2 & Hsplit & Hadd & Hne).
    eexists. left. exists e, l1, l2. do 4 (split; [done|]).
    case_bool_decide as Hmem.
    + assert ({[S rid']} ∪ recipients e = recipients e) as ->
        by (by apply subseteq_union_1_L, singleton_subseteq_l).
      by rewrite set_recipients_id, <- Hsplit, with_messages_id.
    + by rewrite Hadd.
  - apply first_None in Hfirst.
    eexists. right. split.
    + intros m Hm Hrecent. apply dedup_q_spec in Hrecent.
      assert (m ∈ filter
                (λ m, dedup_q (user_id u) (Str.strip raw) (now - dedup_window) m)
                (messages s)) as Hin by (by apply list_elem_of_filter).
      rewrite Hfirst in Hin. by apply elem_of_nil in Hin.
    + by rewrite recipients_add_new.
Qed.

End send.

(** C1: a send with an existing recipient and non-empty trimmed content
    succeeds, and
    - if some [direct] message of the same sender with the same trimmed
      content was created within the last five seconds, one such message
      [e] is reused: the response carries its id and timestamp, the
      table keeps its rows (same number, same place) except that the
      recipient set of [e] gains the recipient, and nothing at all
      changes when the recipient was already in it;
    - if there is no such message (the last identical one is older than
      five seconds), exactly one row is appended, with a key that no
      stored message has. *)
Theorem send_dedup `{Orm} redis s (u : User) rid raw now now' :
  wf_store s → rid ≠ 0%nat → is_Some (users s !! rid) → Str.strip raw ≠ "" →
  ∃ resp s' pub,
    send_message_api redis s u (Some (mkSendData (Some rid) raw)) now now'
      = (resp, s', pub)
    ∧ ((∃ m, m ∈ messages s
             ∧ recent_duplicate (user_id u) (Str.strip raw) now m) →
       ∃ e l1 l2,
         recent_duplicate (user_id u) (Str.strip raw) now e
         ∧ resp = SendOk (msg_id e) (created_at e)
         ∧ messages s = l1 ++ e :: l2
         ∧ messages s'
           = l1 ++ set_recipients ({[rid]} ∪ recipients e) e :: l2
         ∧ length (messages s') = length (messages s)
         ∧ (rid ∈ recipients e → s' = s))
    ∧ ((∀ m, m ∈ messages s →
             ¬ recent_duplicate (user_id u) (Str.strip raw) now m) →
       resp = SendOk (next_id s) now'
       ∧ messages s'
         = messages s ++ [new_message s (user_id u) rid (Str.strip raw) now']
       ∧ length (messages s') = S (length (messages s))
       ∧ next_id s ∉ msg_id <$> messages s).
Proof.
  intros Hwf Hrid Hu Htext.
  destruct (send_valid_cases redis s u rid raw now now' Hwf Hrid Hu Htext)
    as (pub & [(e & l1 & l2 & Hin & He & Hsplit & Hne & E)|[Hnone E]]).
  - eexists _, _, _. split; [exact E|]. split.
    + intros _. exists e, l1, l2. simpl.
      do 4 (split; [done|]). split.
      * rewrite Hsplit, !length_app. done.
      * intros Hmem.
        assert ({[rid]} ∪ recipients e = recipients e) as ->
          by (by apply subseteq_union_1_L, singleton_subseteq_l).
        by rewrite set_recipients_id, <- Hsplit, with_messages_id.
    + intros Hnone. by destruct (Hnone e Hin).
  - eexists _, _, _. split; [exact E|]. split.
    + intros (m & Hm & Hrecent). by destruct (Hnone m Hm).
    + intros _. simpl. do 2 (split; [done|]). split.
      * rewrite length_app. simpl. lia.
      * destruct Hwf as (_ & Hlt & _).
        intros (m & Hid & Hm)%list_elem_of_fmap.
        apply (proj1 (Forall_forall _ _) Hlt) in Hm. lia.
Qed.

(** Ana repeats "hi" to jdoe four seconds after the first send. *)
Lemma send_dedup_witness :
  ∃ resp s' pub,
    @send_message_api engine_asc redis_down store1 ana
       (Some (mkSendData (Some 2%nat) " hi ")) 4000000 4000000
      = (resp, s', pub)
    ∧ ((∃ m, m ∈ messages store1
             ∧ recent_duplicate (user_id ana) (Str.strip " hi ") 4000000 m) →
       ∃ e l1 l2,
         recent_duplicate (user_id ana) (Str.strip " hi ") 4000000 e
         ∧ resp = SendOk (msg_id e) (created_at e)
         ∧ messages store1 = l1 ++ e :: l2
         ∧ messages s'
           = l1 ++ set_recipients ({[2%nat]} ∪ recipients e) e :: l2
         ∧ length (messages s') = length (messages store1)
         ∧ (2%nat ∈ recipients e → s' = store1))
    ∧ ((∀ m, m ∈ messages store1 →
             ¬ recent_duplicate (user_id ana) (Str.strip " hi ") 4000000 m) →
       resp = SendOk (next_id store1) 4000000
       ∧ messages s'
         = messages store1
             ++ [new_message store1 (user_id ana) 2 (Str.strip " hi ") 4000000]
       ∧ length (messages s') = S (length (messages store1))
       ∧ next_id store1 ∉ msg_id <$> messages store1).
Proof.
  apply (@send_dedup engine_asc redis_down store1 ana 2%nat " hi "
           4000000 4000000).
  - by_evaluation.
  - lia.
  - by_evaluation.
  - by vm_compute.
Defined.

(** The three runs of the dedup policy: the same content twice within
    five seconds is one row for [{jdoe}]; a second recipient within the
    window joins the same row; after ten seconds it is a second row. *)
Example send_twice_within_window :
  (λ m, (msg_id m, sender_id m, elements (recipients m), content m))
    <$> messages (post engine_asc store1 ana 2 "hi" 4000000)
  = [(1%nat, 1%nat, [2%nat], "hi")].
Proof. by vm_compute. Qed.

Example send_other_recipient_within_window :
  (λ m, (msg_id m, sender_id m, elements (recipients m), content m))
    <$> messages (post engine_asc store1 ana 3 "hi" 5000000)
  = [(1%nat, 1%nat, [2%nat; 3%nat], "hi")].
Proof. by vm_compute. Qed.

Example send_after_ten_seconds :
  (λ m, (msg_id m, sender_id m, elements (recipients m), content m,
         created_at m))
    <$> messages (post engine_asc store1 ana 2 "hi" 10000000)
  = [(1%nat, 1%nat, [2%nat], "hi", 0);
     (2%nat, 1%nat, [2%nat], "hi", 10000000)].
Proof. by vm_compute. Qed.

(** ** Unread counts across a send *)

Lemma send_ok_inv `{Orm} redis s u rid raw now now' mid ts s' pub :
  send_message_api redis s u (Some (mkSendData (Some rid) raw)) now now'
    = (SendOk mid ts, s', pub) →
  rid ≠ 0%nat ∧ Str.strip raw ≠ "" ∧ is_Some (users s !! rid).
Proof.
  unfold send_message_api. simpl.
  destruct rid as [|rid']; [done|].
  destruct (Str.truthy (Str.strip raw)) eqn:Ht; simpl; [|done].
  destruct (User_objects_get s (S rid')) as [r|] eqn:Hr; [|done].
  intros _. split; [done|]. split.
  - intros Hempty. by rewrite Hempty in Ht.
  - by apply User_objects_get_id in Hr as [_ ?].
Qed.

Lemma unread_count_split x (s : Store) u l1 e l2 :
  user_id u = x → messages s = l1 ++ e :: l2 →
  get_unread_count_api s u
  = (length (filter (λ m, unread_q x m) l1)
     + (if unread_q x e then 1 else 0)
     + length (filter (λ m, unread_q x m) l2))%nat.
Proof.
  intros <- Hs. unfold get_unread_count_api.
  rewrite Hs, filter_app, filter_cons, length_app.
  destruct (unread_q (user_id u) e).
  - rewrite decide_True by done. simpl. lia.
  - rewrite decide_False by (by intros []). lia.
Qed.

Lemma unread_q_gain x rid e :
  unread_q x (set_recipients ({[rid]} ∪ recipients e) e)
  = (bool_decide (x = rid) || bool_decide (x ∈ recipients e))
    && negb (is_read e) && bool_decide (message_type e = "direct").
Proof.
  unfold unread_q. simpl. do 2 f_equal.
  rewrite <- bool_decide_or. apply bool_decide_ext.
  by rewrite elem_of_union, elem_of_singleton.
Qed.

Lemma unread_q_new x s sender rid text now' :
  unread_q x (new_message s sender rid text now') = bool_decide (x = rid).
Proof.
  unfold unread_q. simpl. rewrite !andb_true_r.
  apply bool_decide_ext, elem_of_singleton.
Qed.

Lemma unread_count_new (s s' : Store) u m :
  messages s' = messages s ++ [m] →
  get_unread_count_api s' u
  = (get_unread_count_api s u
     + (if unread_q (user_id u) m then 1 else 0))%nat.
Proof.
  intros Hs. unfold get_unread_count_api.
  rewrite Hs, filter_app, length_app, filter_cons, filter_nil.
  destruct (unread_q (user_id u) m).
  - by rewrite decide_True by done.
  - by rewrite decide_False by (by intros []).
Qed.

(** C2 (as amended): after a successful send from [a] to another user
    [b], the unread count of [a] is unchanged.  The unread count of [b]
    is one greater when the send created a row (no [direct] message of
    [a] with the same trimmed content in the last five seconds).  When
    the send was deduplicated onto a message [e], the count of [b] is
    one greater exactly if [e] is unread and [b] was not yet one of its
    recipients, and unchanged otherwise. *)
Theorem send_unread_count `{Orm} redis s (a b : User) raw now now'
    mid ts s' pub :
  wf_store s → user_id a ≠ user_id b →
  send_message_api redis s a (Some (mkSendData (Some (user_id b)) raw)) now now'
    = (SendOk mid ts, s', pub) →
  get_unread_count_api s' a = get_unread_count_api s a
  ∧ ((∀ m, m ∈ messages s →
           ¬ recent_duplicate (user_id a) (Str.strip raw) now m) →
     get_unread_count_api s' b = S (get_unread_count_api s b))
  ∧ ((∃ m, m ∈ messages s
           ∧ recent_duplicate (user_id a) (Str.strip raw) now m) →
     ∃ e, e ∈ messages s
          ∧ recent_duplicate (user_id a) (Str.strip raw) now e
          ∧ msg_id e = mid
          ∧ get_unread_count_api s' b
            = (get_unread_count_api s b
               + (if negb (bool_decide (user_id b ∈ recipients e))
                     && negb (is_read e)
                  then 1 else 0))%nat).
Proof.
  intros Hwf Hab E.
  destruct (send_ok_inv _ _ _ _ _ _ _ _ _ _ _ E) as (Hrid & Htext & Hu).
  destruct (send_valid_cases redis s a (user_id b) raw now now'
              Hwf Hrid Hu Htext)
    as (pub' & [(e & l1 & l2 & Hin & He & Hsplit & Hne & E')|[Hnone E']]);
    rewrite E' in E; injection E as <- <- <- <-.
  - assert (messages (with_messages
              (l1 ++ set_recipients ({[user_id b]} ∪ recipients e) e :: l2) s)
            = l1 ++ set_recipients ({[user_id b]} ∪ recipients e) e :: l2)
      as Hsplit' by done.
    split; [|split].
    + rewrite (unread_count_split (user_id a) _ a _ _ _ eq_refl Hsplit').
      rewrite (unread_count_split (user_id a) _ a _ _ _ eq_refl Hsplit).
      rewrite unread_q_gain. rewrite (bool_decide_eq_false_2 _ Hab). done.
    + intros Hnone. by destruct (Hnone e Hin).
    + intros _. exists e. do 3 (split; [done|]).
      rewrite (unread_count_split (user_id b) _ b _ _ _ eq_refl Hsplit').
      rewrite (unread_count_split (user_id b) _ b _ _ _ eq_refl Hsplit).
      rewrite unread_q_gain. rewrite (bool_decide_eq_true_2 _ eq_refl).
      destruct He as (_ & _ & Hdirect & _).
      unfold unread_q. rewrite (bool_decide_eq_true_2 _ Hdirect).
      destruct (bool_decide (user_id b ∈ recipients e)), (is_read e);
        simpl; lia.
  - pose proof (λ u, unread_count_new s
        (mkStore (users s) (employees s)
           (messages s
              ++ [new_message s (user_id a) (user_id b) (Str.strip raw) now'])
           (S (next_id s))) u _ eq_refl) as Hcount.
    rewrite !Hcount, !unread_q_new.
    rewrite (bool_decide_eq_false_2 _ Hab), (bool_decide_eq_true_2 _ eq_refl).
    split; [lia|]. split; [intros _; lia|].
    intros (m & Hm & Hrecent). by destruct (Hnone m Hm).
Qed.

(** jdoe answers Ana's first message. *)
Lemma send_unread_count_witness :
  get_unread_count_api store2 jdoe = get_unread_count_api store1 jdoe
  ∧ get_unread_count_api store2 ana = S (get_unread_count_api store1 ana).
Proof.
  destruct (@send_unread_count engine_asc redis_up store1 jdoe ana "hello"
              0 0 2%nat 0 store2
              (publish_message redis_up
                 (mkMessage 2 2 ∅ "hello" "direct" false 0) jdoe ana))
    as (Hsame & Hnew & _).
  - by_evaluation.
  - simpl. lia.
  - by vm_compute.
  - split; [exact Hsame|]. apply Hnew.
    apply Forall_forall. by_evaluation.
Defined.

(** C2 as stated fails on the dedup path: when Ana repeats "hi" to jdoe
    one second after [store1], the send succeeds, no row is added and
    the unread count of jdoe stays at one. *)
Lemma send_unread_count_counterexample :
  ¬ (∀ (E : Orm) redis s (a b : User) raw now now' mid ts s' pub,
       wf_store s → user_id a ≠ user_id b →
       @send_message_api E redis s a
          (Some (mkSendData (Some (user_id b)) raw)) now now'
         = (SendOk mid ts, s', pub) →
       get_unread_count_api s' b = S (get_unread_count_api s b)
       ∧ get_unread_count_api s' a = get_unread_count_api s a).
Proof.
  intros Hclaim.
  destruct (Hclaim engine_asc redis_down store1 ana jdoe "hi"
              1000000 1000000 1%nat 0 store1 [])
    as [Hb _].
  - by_evaluation.
  - simpl. lia.
  - by vm_compute.
  - vm_compute in Hb. discriminate.
Qed.

(** ** Initials *)

Lemma initials_refines u : initials u = initials_spec u.
Proof.
  unfold initials, initials_spec.
  by destruct (first_name u), (last_name u).
Qed.

Lemma elem_of_redis_publish redis channel payload ch p :
  (ch, p) ∈ redis_publish redis channel payload → p = payload.
Proof.
  unfold redis_publish.
  destruct (REDIS_AVAILABLE redis); simpl; [|by intros ?%elem_of_nil].
  destruct (client_publish redis channel payload);
    [|by intros ?%elem_of_nil].
  intros Hin%list_elem_of_singleton. congruence.
Qed.

Lemma publish_message_initials redis m sender recipient ch p :
  (ch, p) ∈ publish_message redis m sender recipient →
  p_initials p = initials sender ∧ p_sender_id p = user_id sender.
Proof.
  unfold publish_message.
  by intros [->%elem_of_redis_publish | ->%elem_of_redis_publish]%elem_of_app.
Qed.

(** C7: the initials computed by the code are those of the
    specification for every user: in every payload that
    [publish_message] hands to the broker (initials of the sender), in
    the other-user summary of a conversation and in every message entry
    of a conversation (initials of its sender).  First name "Ana" and
    last name "Lee" give "AL"; empty names with username "jdoe" give
    "JD". *)
Theorem initials_everywhere `{Orm} redis s (cu : User) (uid : nat) :
  wf_store s → is_Some (users s !! uid) →
  (∀ u, initials u = initials_spec u)
  ∧ (∀ i n, initials (mkUser i n "Ana" "Lee") = "AL")
  ∧ (∀ i, initials (mkUser i "jdoe" "" "") = "JD")
  ∧ (∀ m sender recipient ch p,
        (ch, p) ∈ publish_message redis m sender recipient →
        p_initials p = initials_spec sender)
  ∧ ∃ data ou s' other,
      get_conversation_messages redis s cu uid = (ConversationOk data ou, s')
      ∧ User_objects_get s uid = Some other
      ∧ ou_initials ou = initials_spec other
      ∧ Forall (λ v, ∃ sender,
                  User_objects_get s (mv_sender_id v) = Some sender
                  ∧ mv_initials v = initials_spec sender) data.
Proof.
  intros Hwf Hu.
  split; [apply initials_refines|]. do 2 (split; [done|]). split.
  { intros m sender recipient ch p [-> _]%publish_message_initials.
    apply initials_refines. }
  destruct (get_conversation_ok redis s cu uid Hwf Hu)
    as (data & ou & E & V & _ & Hou & _).
  destruct (User_objects_get_is_Some s uid Hu) as (other & Hother & _).
  eexists data, ou, _, other. split; [exact E|]. split; [done|]. split.
  { rewrite (Hou other Hother). apply initials_refines. }
  eapply Forall2_Forall_r; [exact V|].
  apply Forall_forall. intros m [Hm _]%elem_of_conversation_messages v Hv.
  destruct Hwf as (_ & _ & Hfk).
  apply (proj1 (Forall_forall _ _) Hfk) in Hm.
  apply User_objects_get_is_Some in Hm as (sender & Hsender & _).
  destruct Hv as (_ & _ & Hid & _ & _ & _ & Hini).
  exists sender. rewrite Hid. split; [done|].
  destruct (Hini sender Hsender) as [-> _]. apply initials_refines.
Qed.

Lemma initials_everywhere_witness :
  (∀ u, initials u = initials_spec u)
  ∧ (∀ i n, initials (mkUser i n "Ana" "Lee") = "AL")
  ∧ (∀ i, initials (mkUser i "jdoe" "" "") = "JD")
  ∧ (∀ m sender recipient ch p,
        (ch, p) ∈ publish_message redis_up m sender recipient →
        p_initials p = initials_spec sender)
  ∧ ∃ data ou s' other,
      @get_conversation_messages engine_asc redis_up store2 ana 2
        = (ConversationOk data ou, s')
      ∧ User_objects_get store2 2 = Some other
      ∧ ou_initials ou = initials_spec other
      ∧ Forall (λ v, ∃ sender,
                  User_objects_get store2 (mv_sender_id v) = Some sender
                  ∧ mv_initials v = initials_spec sender) data.
Proof.
  apply (@initials_everywhere engine_asc redis_up store2 ana 2%nat).
  - by_evaluation.
  - by_evaluation.
Defined.

(** ** Failures *)

Lemma truthy_false_iff text : Str.truthy text = false ↔ text = "".
Proof. by destruct text. Qed.

(** The response of a send, case by case. *)
Lemma send_response `{Orm} redis s (u : User) data now now' :
  let out := send_message_api redis s u (Some data) now now' in
  match recipient_id data with
  | None | Some O => out = (SendMissingFields, s, [])
  | Some rid =>
      if Str.truthy (Str.strip (data_content data)) then
        match users s !! rid with
        | None => out = (SendRecipientNotFound, s, [])
        | Some _ => ∃ mid ts, out.1.1 = SendOk mid ts
        end
      else out = (SendMissingFields, s, [])
  end.
Proof.
  unfold send_message_api. destruct data as [[[|rid]|] raw]; simpl; try done.
  destruct (Str.truthy (Str.strip raw)); simpl; [|done].
  unfold User_objects_get. destruct (users s !! S rid); simpl; [|done].
  destruct (first _); simpl; eauto.
Qed.

(** C8 (as amended): a send answers "missing fields" (400) exactly when
    the recipient id is absent or zero or the content is empty after
    trimming, and "recipient not found" (404) exactly when the recipient
    id is present, the trimmed content is non-empty and the id names no
    user; the conversation view on a consistent store answers "user not
    found" (404) exactly when the other user id names no user; in each
    of these cases the store is left as it was. *)
Theorem failures_leave_store `{Orm} redis s (u : User) data now now' uid :
  wf_store s →
  (∀ resp s' pub,
     send_message_api redis s u (Some data) now now' = (resp, s', pub) →
     (resp = SendMissingFields
      ↔ recipient_id data = None ∨ recipient_id data = Some 0%nat
        ∨ Str.strip (data_content data) = "")
     ∧ (resp = SendRecipientNotFound
        ↔ ∃ rid, recipient_id data = Some rid ∧ rid ≠ 0%nat
                 ∧ Str.strip (data_content data) ≠ ""
                 ∧ users s !! rid = None)
     ∧ (resp = SendMissingFields ∨ resp = SendRecipientNotFound → s' = s))
  ∧ (∀ resp s',
       get_conversation_messages redis s u uid = (resp, s') →
       (resp = ConversationNotFound ↔ users s !! uid = None)
       ∧ (resp = ConversationNotFound → s' = s)).
Proof.
  intros Hwf. split.
  - intros resp s' pub E.
    pose proof (send_response redis s u data now now') as Hr.
    cbv zeta in Hr. rewrite E in Hr.
    destruct (recipient_id data) as [[|rid]|] eqn:Hrid.
    + injection Hr as -> -> _. split; [|split].
      * split; [auto|done].
      * split; [done|]. intros (rid & [= <-] & Hne & _). done.
      * done.
    + destruct (Str.truthy (Str.strip (data_content data))) eqn:Ht.
      * assert (Str.strip (data_content data) ≠ "") as Hne
          by (intros Hempty; by rewrite Hempty in Ht).
        destruct (users s !! S rid) eqn:Hu.
        -- destruct Hr as (mid & ts & Hr). simpl in Hr. subst resp.
           split; [|split].
           ++ split; [done|]. intros [?|[?|?]]; done.
           ++ split; [done|]. intros (? & [= <-] & _ & _ & ?). congruence.
           ++ intros [?|?]; done.
        -- injection Hr as -> -> _. split; [|split].
           ++ split; [done|]. intros [?|[?|?]]; done.
           ++ split; [|done]. intros _. by exists (S rid).
           ++ done.
      * apply truthy_false_iff in Ht. injection Hr as -> -> _.
        split; [|split].
        -- split; [auto|done].
        -- split; [done|]. intros (? & _ & _ & ? & _). done.
        -- done.
    + injection Hr as -> -> _. split; [|split].
      * split; [auto|done].
      * split; [done|]. intros (? & [=] & _).
      * done.
  - intros resp s' E. destruct (users s !! uid) as [r|] eqn:Hu.
    + destruct (get_conversation_ok redis s u uid Hwf)
        as (data' & ou & E' & _); [by rewrite Hu|].
      rewrite E' in E. injection E as <- <-. by split.
    + unfold get_conversation_messages in E.
      rewrite (proj2 (User_objects_get_None s uid) Hu) in E.
      injection E as <- <-. by split.
Qed.

(** On [store0] nobody has id 99: Ana's "hi" to 99 is answered "recipient
    not found", and the conversation with 99 "user not found". *)
Lemma failures_leave_store_witness :
  (@send_message_api engine_asc redis_up store0 ana
     (Some (mkSendData (Some 99%nat) "hi")) 0 0).1
  = (SendRecipientNotFound, store0)
  ∧ @get_conversation_messages engine_asc redis_up store0 ana 99
    = (ConversationNotFound, store0).
Proof.
  destruct (@failures_leave_store engine_asc redis_up store0 ana
              (mkSendData (Some 99%nat) "hi") 0 0 99%nat)
    as [Hsend Hconv]; [by_evaluation|].
  split.
  - destruct (@send_message_api engine_asc redis_up store0 ana
                (Some (mkSendData (Some 99%nat) "hi")) 0 0)
      as [[resp s'] pub] eqn:E.
    destruct (Hsend resp s' pub eq_refl) as (_ & Hnf & Hsame).
    assert (resp = SendRecipientNotFound) as ->.
    { apply Hnf. exists 99%nat. repeat split; [lia|by vm_compute]. }
    simpl. f_equal. apply Hsame. by right.
  - destruct (@get_conversation_messages engine_asc redis_up store0 ana 99)
      as [resp s'] eqn:E.
    destruct (Hconv resp s' eq_refl) as (Hnf & Hsame).
    assert (resp = ConversationNotFound) as -> by (by apply Hnf).
    f_equal. by apply Hsame.
Defined.

(** C8 as stated fails: blank content sent to the unknown id 99 is
    answered "missing fields", not "recipient not found", because the
    fields are checked before the recipient is looked up. *)
Lemma failures_counterexample :
  ¬ (∀ (E : Orm) redis s (u : User) rid raw now now',
       let resp :=
         (@send_message_api E redis s u
            (Some (mkSendData (Some rid) raw)) now now').1.1 in
       (resp = SendRecipientNotFound ↔ users s !! rid = None)
       ∧ (resp = SendMissingFields ↔ Str.strip raw = "")).
Proof.
  intros Hclaim.
  destruct (Hclaim engine_asc redis_up store0 ana 99%nat "  " 0 0)
    as [[_ Hnf] _].
  specialize (Hnf eq_refl). vm_compute in Hnf. discriminate.
Qed.

(** ** The broker *)

Lemma redis_exists_down redis key :
  REDIS_AVAILABLE redis = false ∨ client_exists redis key = None →
  redis_exists redis key = false.
Proof.
  unfold redis_exists. intros [->| ->]; [done|].
  by destruct (REDIS_AVAILABLE redis).
Qed.

Lemma send_ignores_broker `{Orm} redis redis' s (u : User) body now now' :
  (send_message_api redis s u body now now').1
  = (send_message_api redis' s u body now now').1.
Proof.
  unfold send_message_api. destruct body as [[[[|rid]|] raw]|]; simpl; try done.
  destruct (Str.truthy (Str.strip raw)); simpl; [|done].
  destruct (User_objects_get s (S rid)); simpl; [|done].
  by destruct (first _).
Qed.

Lemma conversation_ignores_broker `{Orm} redis redis' s (u : User) uid :
  match get_conversation_messages redis s u uid,
        get_conversation_messages redis' s u uid with
  | (ConversationOk d _, s1), (ConversationOk d' _, s2) => d = d' ∧ s1 = s2
  | (ConversationNotFound, s1), (ConversationNotFound, s2) => s1 = s2
  | _, _ => False
  end.
Proof.
  unfold get_conversation_messages.
  destruct (User_objects_get s uid) as [other|]; [|done].
  by destruct (conversation_loop _ _ _ _) as [rows [data|]].
Qed.

(** C9: whatever the broker does (not reachable when the module was
    loaded, or raising on any call), the response of a send and the
    store it leaves are those of a send with any other broker; a valid
    send answers success with the id and timestamp of a stored message
    that has the trimmed content and the recipient; the conversation
    view answers success, with the same messages and the same store as
    with any other broker, and reports the other user offline when the
    broker is unavailable or the presence lookup raises. *)
Theorem broker_failure_invisible `{Orm} redis redis' s (u : User) rid raw
    now now' uid :
  wf_store s →
  rid ≠ 0%nat → is_Some (users s !! rid) → Str.strip raw ≠ "" →
  is_Some (users s !! uid) →
  (∀ body, (send_message_api redis s u body now now').1
           = (send_message_api redis' s u body now now').1)
  ∧ (∃ mid ts s' pub m,
        send_message_api redis s u (Some (mkSendData (Some rid) raw)) now now'
          = (SendOk mid ts, s', pub)
        ∧ m ∈ messages s' ∧ msg_id m = mid ∧ created_at m = ts
        ∧ content m = Str.strip raw ∧ rid ∈ recipients m
        ∧ (REDIS_AVAILABLE redis = false → pub = []))
  ∧ (∃ data ou ou' s',
        get_conversation_messages redis s u uid = (ConversationOk data ou, s')
        ∧ get_conversation_messages redis' s u uid
          = (ConversationOk data ou', s')
        ∧ (REDIS_AVAILABLE redis = false
           ∨ client_exists redis ("user_online_" +:+ pretty uid) = None →
           ou_is_online ou = false)).
Proof.
  intros Hwf Hrid Hu Htext Hother. split; [|split].
  - intros body. apply send_ignores_broker.
  - assert (∀ pub, REDIS_AVAILABLE redis = false →
              pub = (send_message_api redis s u
                       (Some (mkSendData (Some rid) raw)) now now').2 →
              pub = []) as Hpub.
    { intros pub Hdown ->. unfold send_message_api. simpl.
      destruct rid as [|rid']; [done|].
      destruct (Str.truthy (Str.strip raw)); simpl; [|done].
      destruct (User_objects_get s (S rid')); simpl; [|done].
      destruct (first _); simpl;
        unfold publish_message, redis_publish; by rewrite Hdown. }
    destruct (send_valid_cases redis s u rid raw now now' Hwf Hrid Hu Htext)
      as (pub & [(e & l1 & l2 & Hin & He & Hsplit & Hne & E)|[Hnone E]]).
    + eexists _, _, _, pub,
        (set_recipients ({[rid]} ∪ recipients e) e).
      split; [exact E|]. simpl. split.
      { apply elem_of_app. right. left. }
      destruct He as (_ & Hc & _).
      do 3 (split; [done|]). split.
      { apply elem_of_union. left. by apply elem_of_singleton. }
      intros Hdown. apply Hpub; [done|]. by rewrite E.
    + eexists _, _, _, pub,
        (new_message s (user_id u) rid (Str.strip raw) now').
      split; [exact E|]. simpl. split.
      { apply elem_of_app. right. left. }
      do 3 (split; [done|]). split.
      { by apply elem_of_singleton. }
      intros Hdown. apply Hpub; [done|]. by rewrite E.
  - destruct (get_conversation_ok redis s u uid Hwf Hother)
      as (data & ou & E & V & _ & _ & Honline).
    destruct (get_conversation_ok redis' s u uid Hwf Hother)
      as (data' & ou' & E' & _).
    pose proof (conversation_ignores_broker redis redis' s u uid) as Hsame.
    rewrite E, E' in Hsame. destruct Hsame as [<- _].
    eexists data, ou, ou', _. split; [exact E|]. split; [exact E'|].
    intros Hdown. rewrite Honline. by apply redis_exists_down.
Qed.

Lemma broker_failure_invisible_witness :
  (∀ body, (@send_message_api engine_asc redis_raising store1 ana body 0 0).1
           = (@send_message_api engine_asc redis_up store1 ana body 0 0).1)
  ∧ (∃ mid ts s' pub m,
        @send_message_api engine_asc redis_raising store1 ana
           (Some (mkSendData (Some 3%nat) "hi")) 0 0
          = (SendOk mid ts, s', pub)
        ∧ m ∈ messages s' ∧ msg_id m = mid ∧ created_at m = ts
        ∧ content m = Str.strip "hi" ∧ 3%nat ∈ recipients m
        ∧ (REDIS_AVAILABLE redis_raising = false → pub = []))
  ∧ (∃ data ou ou' s',
        @get_conversation_messages engine_asc redis_raising store1 ana 2
          = (ConversationOk data ou, s')
        ∧ @get_conversation_messages engine_asc redis_up store1 ana 2
          = (ConversationOk data ou', s')
        ∧ (REDIS_AVAILABLE redis_raising = false
           ∨ client_exists redis_raising ("user_online_" +:+ pretty 2%nat)
             = None →
           ou_is_online ou = false)).
Proof.
  apply (@broker_failure_invisible engine_asc redis_raising redis_up store1
           ana 3%nat "hi" 0 0 2%nat).
  - by_evaluation.
  - lia.
  - by_evaluation.
  - by vm_compute.
  - by_evaluation.
Defined.

(** ** The integrity of the database is an invariant *)

Lemma wf_store_fmap (f : Message → Message) s :
  (∀ m, msg_id (f m) = msg_id m) → (∀ m, sender_id (f m) = sender_id m) →
  wf_store s → wf_store (with_messages (f <$> messages s) s).
Proof.
  intros Hid Hsender (Hnd & Hlt & Hfk). unfold wf_store. simpl.
  split; [|split].
  - rewrite <- list_fmap_compose.
    by rewrite (list_fmap_ext (msg_id ∘ f) msg_id (messages s))
      by (intros; apply Hid).
  - apply Forall_fmap. eapply Forall_impl; [exact Hlt|].
    intros m. simpl. by rewrite Hid.
  - apply Forall_fmap. eapply Forall_impl; [exact Hfk|].
    intros m. simpl. by rewrite Hsender.
Qed.

Lemma wf_store_send `{Orm} redis s (u : User) body now now' :
  wf_store s → is_Some (users s !! user_id u) →
  wf_store (send_message_api redis s u body now now').1.2.
Proof.
  intros Hwf Hu. destruct body as [data|]; [|done].
  pose proof (send_response redis s u data now now') as Hr. cbv zeta in Hr.
  destruct data as [[[|rid]|] raw]; cbn [recipient_id data_content] in Hr;
    try (by rewrite Hr).
  destruct (Str.truthy (Str.strip raw)) eqn:Ht; [|by rewrite Hr].
  destruct (users s !! S rid) eqn:Hrow; [|by rewrite Hr]. clear Hr.
  assert (Str.strip raw ≠ "") as Htext
    by (intros Hempty; by rewrite Hempty in Ht).
  destruct (send_valid_cases redis s u (S rid) raw now now' Hwf)
    as (pub & [(e & l1 & l2 & Hin & He & Hsplit & Hne & ->)|[Hnone ->]]);
    [done|by rewrite Hrow|done| |]; simpl.
  - destruct Hwf as (Hnd & Hlt & Hfk). rewrite Hsplit in Hnd, Hlt, Hfk.
    unfold wf_store. simpl. split; [|split].
    + by rewrite fmap_app, fmap_cons in Hnd |- *.
    + apply Forall_app in Hlt as [? [? ?]%Forall_cons].
      apply Forall_app. split; [done|]. by apply Forall_cons.
    + apply Forall_app in Hfk as [? [? ?]%Forall_cons].
      apply Forall_app. split; [done|]. by apply Forall_cons.
  - destruct Hwf as (Hnd & Hlt & Hfk). unfold wf_store. simpl.
    split; [|split].
    + rewrite fmap_app. apply NoDup_app. split; [done|]. split.
      * intros i (m & -> & Hm)%list_elem_of_fmap
          [= Hi]%list_elem_of_singleton.
        apply (proj1 (Forall_forall _ _) Hlt) in Hm. lia.
      * apply NoDup_singleton.
    + apply Forall_app. split.
      * eapply Forall_impl; [exact Hlt|]. simpl. lia.
      * apply Forall_singleton. simpl. lia.
    + apply Forall_app. split; [done|]. by apply Forall_singleton.
Qed.

Lemma wf_store_open `{Orm} redis s (u : User) uid :
  wf_store s → wf_store (get_conversation_messages redis s u uid).2.
Proof.
  intros Hwf. destruct (users s !! uid) as [r|] eqn:Hu.
  - destruct (get_conversation_ok redis s u uid Hwf)
      as (data & ou & -> & _); [by rewrite Hu|].
    simpl. unfold read_on_open. apply wf_store_fmap; [| |done];
      intros m; by destruct (_ && _).
  - unfold get_conversation_messages.
    by rewrite (proj2 (User_objects_get_None s uid) Hu).
Qed.

Lemma wf_store_mark s (u : User) uid :
  wf_store s → wf_store (mark_as_read_api s u uid).2.
Proof.
  intros Hwf. unfold mark_as_read_api. simpl.
  apply wf_store_fmap; [| |done]; intros m; by destruct (mark_read_q _ _ _).
Qed.

Lemma step_users `{Orm} s s' : step s s' → users s' = users s.
Proof.
  intros [redis u body now now' Hu|redis u uid|u uid]; [| |done].
  - unfold send_message_api.
    destruct body as [[[[|rid]|] raw]|]; simpl; try done.
    destruct (Str.truthy (Str.strip raw)); simpl; [|done].
    destruct (User_objects_get s (S rid)); simpl; [|done].
    destruct (first _); simpl; [|done]. by case_bool_decide.
  - unfold get_conversation_messages.
    destruct (User_objects_get s uid); [|done].
    by destruct (conversation_loop _ _ _ _) as [rows [data|]].
Qed.

Lemma wf_store_step `{Orm} s s' : wf_store s → step s s' → wf_store s'.
Proof.
  intros Hwf [redis u body now now' Hu|redis u uid|u uid].
  - by apply wf_store_send.
  - by apply wf_store_open.
  - by apply wf_store_mark.
Qed.

(** Every database reached from an empty message table by requests of
    logged-in users is consistent. *)
Lemma wf_store_reachable `{Orm} us emp s :
  rtc step (mkStore us emp [] 1) s → wf_store s.
Proof.
  intros Hrtc. apply rtc_nsteps in Hrtc as [n Hn].
  remember (mkStore us emp [] 1) as s0 eqn:Hs0.
  assert (wf_store s0) as Hwf0.
  { subst s0. unfold wf_store. simpl.
    split; [apply NoDup_nil_2|]. split; constructor. }
  clear Hs0. revert s0 Hwf0 Hn.
  induction n as [|n IH]; intros s0 Hwf0 Hn.
  - by inv Hn.
  - inv Hn. eapply IH; [|done]. by eapply wf_store_step.
Qed.

(** * Further properties of the messaging views *)

(** ** Avatar colours *)

(** X1: the colour of a user is always one of the six palette entries
    behind the prefix "bg-" (the index never leaves the palette), and
    two users get the same colour exactly when their ids are congruent
    modulo six. *)
Theorem get_user_color_palette (uid uid' : nat) :
  (∃ c, c ∈ colors ∧ get_user_color uid = "bg-" +:+ c)
  ∧ (get_user_color uid = get_user_color uid'
     ↔ (uid mod 6 = uid' mod 6)%nat).
Proof.
  unfold get_user_color. change (length colors) with 6%nat.
  pose proof (Nat.mod_upper_bound uid 6 ltac:(lia)) as Hr.
  pose proof (Nat.mod_upper_bound uid' 6 ltac:(lia)) as Hr'.
  revert Hr Hr'. generalize (uid mod 6)%nat (uid' mod 6)%nat.
  intros r r' Hr Hr'. split.
  - do 6 (destruct r as [|r];
          [eexists; split; [|reflexivity]; by_evaluation|]).
    lia.
  - split; [|by intros ->].
    do 6 (destruct r as [|r];
          [do 6 (destruct r' as [|r']; [by (done || intros [=])|]); lia|]).
    lia.
Qed.

(** ** Fan-out *)

Lemma user_channel_inj (a b : nat) :
  "user_" +:+ pretty a = "user_" +:+ pretty b → a = b.
Proof. intros Heq. by apply (inj pretty), (inj (String.app "user_")). Qed.

Lemma elem_of_redis_publish_channel redis channel payload ch p :
  (ch, p) ∈ redis_publish redis channel payload → ch = channel.
Proof.
  unfold redis_publish.
  destruct (REDIS_AVAILABLE redis); simpl; [|by intros ?%elem_of_nil].
  destruct (client_publish redis channel payload);
    [|by intros ?%elem_of_nil].
  intros Hin%list_elem_of_singleton. congruence.
Qed.

(** X2: whatever the broker does, [publish_message] hands it at most two
    publications; each goes to the channel of the recipient or of the
    sender, never to the channel of a third user, and carries the id,
    content and timestamp of the message and the ids of sender and
    recipient. *)
Theorem publish_message_private redis m (sender recipient : User) :
  (length (publish_message redis m sender recipient) ≤ 2)%nat
  ∧ ∀ ch p, (ch, p) ∈ publish_message redis m sender recipient →
      (ch = "user_" +:+ pretty (user_id recipient)
       ∨ ch = "user_" +:+ pretty (user_id sender))
      ∧ (∀ uid, ch = "user_" +:+ pretty uid →
                uid = user_id recipient ∨ uid = user_id sender)
      ∧ p_type p = "direct_message"
      ∧ p_message_id p = msg_id m ∧ p_content p = content m
      ∧ p_timestamp p = created_at m
      ∧ p_sender_id p = user_id sender
      ∧ p_recipient_id p = user_id recipient.
Proof.
  split.
  - unfold publish_message, redis_publish. rewrite length_app.
    destruct (REDIS_AVAILABLE redis); simpl; [|lia].
    repeat destruct (client_publish _ _ _); simpl; lia.
  - intros ch p Hin.
    assert (ch = "user_" +:+ pretty (user_id recipient)
            ∨ ch = "user_" +:+ pretty (user_id sender)) as Hch.
    { unfold publish_message in Hin.
      apply elem_of_app in Hin as [Hin|Hin];
        apply elem_of_redis_publish_channel in Hin; auto. }
    split; [done|]. split.
    { intros uid ->. destruct Hch as [Hch|Hch];
        apply user_channel_inj in Hch; auto. }
    unfold publish_message in Hin.
    by apply elem_of_app in Hin as [Hin|Hin];
      apply elem_of_redis_publish in Hin as ->.
Qed.

Lemma send_ok_shape `{Orm} redis s (u : User) rid raw now now' mid ts s' pub :
  send_message_api redis s u (Some (mkSendData (Some rid) raw)) now now'
    = (SendOk mid ts, s', pub) →
  ∃ message recipient,
    msg_id message = mid ∧ created_at message = ts
    ∧ content message = Str.strip raw ∧ user_id recipient = rid
    ∧ pub = publish_message redis message u recipient.
Proof.
  unfold send_message_api. simpl.
  destruct rid as [|rid']; [done|].
  destruct (Str.truthy (Str.strip raw)); simpl; [|done].
  destruct (User_objects_get s (S rid')) as [r|] eqn:Hr; [|done].
  apply User_objects_get_id in Hr as [Hid _].
  destruct (first _) as [e|] eqn:Hfirst.
  - apply first_elem_of, list_elem_of_filter in Hfirst as [He _].
    apply dedup_q_spec in He as (_ & Hc & _).
    intros [= <- <- <- <-]. by exists e, r.
  - intros [= <- <- <- <-].
    by exists (mkMessage (next_id s) (user_id u) ∅ (Str.strip raw) "direct"
                 is_read_default now'), r.
Qed.

(** X3: the notifications of a successful send describe the message the
    response names: same id and timestamp as the response, the trimmed
    content, sender and recipient of the request.  With a broker that is
    available and accepts every publication there are exactly two, first
    on the channel of the recipient, then on the channel of the sender;
    with an unavailable broker there is none. *)
Theorem send_publications `{Orm} redis s (u : User) rid raw now now'
    mid ts s' pub :
  send_message_api redis s u (Some (mkSendData (Some rid) raw)) now now'
    = (SendOk mid ts, s', pub) →
  (∀ ch p, (ch, p) ∈ pub →
     p_message_id p = mid ∧ p_timestamp p = ts
     ∧ p_content p = Str.strip raw
     ∧ p_sender_id p = user_id u ∧ p_recipient_id p = rid)
  ∧ (REDIS_AVAILABLE redis = true →
     (∀ ch p, is_Some (client_publish redis ch p)) →
     ∃ p, pub = [("user_" +:+ pretty rid, p);
                 ("user_" +:+ pretty (user_id u), p)])
  ∧ (REDIS_AVAILABLE redis = false → pub = []).
Proof.
  intros (message & recipient & <- & <- & <- & <- & ->)%send_ok_shape.
  split; [|split].
  - intros ch p Hin.
    by apply publish_message_private in Hin as (_ & _ & _ & ? & ? & ? & ? & ?).
  - intros Hup Hok. unfold publish_message, redis_publish. rewrite Hup. simpl.
    eexists.
    destruct (Hok ("user_" +:+ pretty (user_id recipient))
                (mkPayload "direct_message" (msg_id message) (user_id u)
                   (user_id recipient) (content message) (created_at message)
                   (get_user_color (user_id u)) (initials u))) as [? ->].
    destruct (Hok ("user_" +:+ pretty (user_id u))
                (mkPayload "direct_message" (msg_id message) (user_id u)
                   (user_id recipient) (content message) (created_at message)
                   (get_user_color (user_id u)) (initials u))) as [? ->].
    reflexivity.
  - intros Hdown. unfold publish_message, redis_publish. by rewrite Hdown.
Qed.

Lemma send_publications_witness :
  (∀ ch p, (ch, p) ∈ (@send_message_api engine_asc redis_up store0 ana
                        (Some (mkSendData (Some 2%nat) " hi ")) 0 0).2 →
     p_message_id p = 1%nat ∧ p_timestamp p = 0
     ∧ p_content p = Str.strip " hi "
     ∧ p_sender_id p = user_id ana ∧ p_recipient_id p = 2%nat)
  ∧ (REDIS_AVAILABLE redis_up = true →
     (∀ ch p, is_Some (client_publish redis_up ch p)) →
     ∃ p, (@send_message_api engine_asc redis_up store0 ana
             (Some (mkSendData (Some 2%nat) " hi ")) 0 0).2
          = [("user_" +:+ pretty 2%nat, p);
             ("user_" +:+ pretty (user_id ana), p)])
  ∧ (REDIS_AVAILABLE redis_up = false →
     (@send_message_api engine_asc redis_up store0 ana
        (Some (mkSendData (Some 2%nat) " hi ")) 0 0).2 = []).
Proof.
  apply (@send_publications engine_asc redis_up store0 ana 2%nat " hi " 0 0
           1%nat 0 store1).
  by vm_compute.
Defined.

(** ** Sends that do not succeed *)

(** X4: a send that does not answer success (malformed body, missing
    field, unknown recipient) leaves the store as it was and publishes
    nothing. *)
Theorem send_failure_silent `{Orm} redis s (u : User) body now now' :
  match send_message_api redis s u body now now' with
  | (SendOk _ _, _, _) => True
  | (_, s', pub) => s' = s ∧ pub = []
  end.
Proof.
  unfold send_message_api. destruct body as [[[[|rid]|] raw]|]; simpl; try done.
  destruct (Str.truthy (Str.strip raw)); simpl; [|done].
  destruct (User_objects_get s (S rid)); simpl; [|done].
  by destruct (first _).
Qed.

Lemma all_space_rev_app s1 s2 :
  all_space (String.rev_app s1 s2) = all_space s1 && all_space s2.
Proof.
  revert s2. induction s1 as [|c s1 IH]; intros s2; simpl; [done|].
  rewrite IH. simpl. by destruct (Str.isspace c), (all_space s1).
Qed.

Lemma rev_app_empty s1 s2 : String.rev_app s1 s2 = "" → s1 = "" ∧ s2 = "".
Proof.
  revert s2. induction s1 as [|c s1 IH]; intros s2; simpl; [done|].
  by intros [_ [=]]%IH.
Qed.

Lemma lstrip_empty s : Str.lstrip s = "" ↔ all_space s = true.
Proof.
  induction s as [|c s IH]; simpl; [done|].
  destruct (Str.isspace c); simpl; [done|]. split; intros [=].
Qed.

Lemma lstrip_all_space s : all_space (Str.lstrip s) = true → Str.lstrip s = "".
Proof.
  induction s as [|c s IH]; simpl; [done|].
  destruct (Str.isspace c) eqn:Hc; [done|]. simpl. by rewrite Hc.
Qed.

Lemma strip_empty s : Str.strip s = "" ↔ all_space s = true.
Proof.
  unfold Str.strip, Str.rstrip, String.rev. split.
  - intros [Hl _]%rev_app_empty. apply lstrip_empty in Hl.
    rewrite all_space_rev_app, andb_true_r in Hl.
    by apply lstrip_empty, lstrip_all_space.
  - intros Hs%lstrip_empty. by rewrite Hs.
Qed.

(** X5: for ASCII content and a recipient id given, a send is answered
    "missing fields" exactly when the content is empty or consists of
    whitespace only; such a send stores and publishes nothing. *)
Theorem send_rejects_blank_content `{Orm} redis s (u : User) rid raw now now' :
  Str.isascii raw = true →
  ((send_message_api redis s u (Some (mkSendData (Some (S rid)) raw)) now now').1.1
     = SendMissingFields
   ↔ all_space raw = true)
  ∧ (all_space raw = true →
     send_message_api redis s u (Some (mkSendData (Some (S rid)) raw)) now now'
     = (SendMissingFields, s, [])).
Proof.
  intros _. rewrite <- strip_empty.
  pose proof (send_response redis s u (mkSendData (Some (S rid)) raw) now now')
    as Hr.
  cbv zeta in Hr. cbn [recipient_id data_content] in Hr.
  destruct (Str.truthy (Str.strip raw)) eqn:Ht.
  - assert (Str.strip raw ≠ "") as Hne
      by (intros Hempty; by rewrite Hempty in Ht).
    split; [|done].
    destruct (users s !! S rid).
    + destruct Hr as (mid & ts & ->). by split.
    + rewrite Hr. by split.
  - apply truthy_false_iff in Ht. rewrite Hr. by split.
Qed.

(** Ana sends three spaces to jdoe. *)
Lemma send_rejects_blank_content_witness :
  ((@send_message_api engine_asc redis_up store0 ana
      (Some (mkSendData (Some 2%nat) "   ")) 0 0).1.1 = SendMissingFields
   ↔ all_space "   " = true)
  ∧ (all_space "   " = true →
     @send_message_api engine_asc redis_up store0 ana
       (Some (mkSendData (Some 2%nat) "   ")) 0 0
     = (SendMissingFields, store0, [])).
Proof.
  apply (@send_rejects_blank_content engine_asc redis_up store0 ana 1%nat
           "   " 0 0).
  by vm_compute.
Defined.

(** ** What a send keeps *)

Lemma recipients_add_grown mid uid rows :
  Forall2 grown rows (recipients_add mid uid rows).
Proof.
  unfold recipients_add. apply Forall2_fmap_r, Forall_Forall2_diag.
  apply Forall_forall. intros m _. unfold compose.
  case_bool_decide; repeat split; simpl; try done.
  apply union_subseteq_r.
Qed.

(** X6: no send, whatever its outcome, deletes or rewrites a message:
    the rows that were stored are still there, in the same order, with
    the same id, sender, content, kind, read flag and creation time, and
    with at least the recipients they had; at most one row is added
    behind them; the key counter never decreases and the user table is
    untouched. *)
Theorem send_keeps_rows `{Orm} redis s (u : User) body now now' :
  let s' := (send_message_api redis s u body now now').1.2 in
  (∃ old new, messages s' = old ++ new
              ∧ Forall2 grown (messages s) old ∧ (length new ≤ 1)%nat)
  ∧ (next_id s ≤ next_id s')%nat
  ∧ users s' = users s ∧ employees s' = employees s.
Proof.
  assert (Forall2 grown (messages s) (messages s)) as Hsame.
  { apply Forall_Forall2_diag, Forall_forall. intros m _.
    by repeat split. }
  assert (∃ old new, messages s = old ++ new
              ∧ Forall2 grown (messages s) old ∧ (length new ≤ 1)%nat)
    as Hkeep.
  { exists (messages s), []. rewrite app_nil_r. simpl.
    split; [done|]. split; [done|lia]. }
  unfold send_message_api. destruct body as [[[[|rid]|] raw]|]; simpl;
    try done.
  destruct (Str.truthy (Str.strip raw)); simpl; [|done].
  destruct (User_objects_get s (S rid)) as [r|]; simpl; [|done].
  destruct (first _) as [e|]; simpl.
  - case_bool_decide; simpl; [done|].
    split; [|done]. eexists _, []. rewrite app_nil_r.
    split; [done|]. split; [apply recipients_add_grown|simpl; lia].
  - split; [|split; [lia|done]].
    unfold recipients_add. rewrite fmap_app.
    eexists _, _. split; [done|]. split; [apply recipients_add_grown|done].
Qed.

(** ** What opening a conversation and marking read change *)

Lemma conversation_q_set_is_read a b r flag :
  conversation_q a b (set_is_read flag r) = conversation_q a b r.
Proof. done. Qed.

Lemma read_on_open_idem a b rows :
  read_on_open a b (read_on_open a b rows) = read_on_open a b rows.
Proof.
  unfold read_on_open. rewrite <- list_fmap_compose.
  apply list_fmap_ext. intros i r _. simpl.
  destruct (conversation_q a b r && negb (bool_decide (sender_id r = a)))
    eqn:Hq; simpl; [|by rewrite Hq].
  rewrite conversation_q_set_is_read. simpl. by rewrite Hq.
Qed.

Lemma unread_count_read_only x rows rows' :
  Forall2 (λ m m', m' = m ∨ m' = set_is_read true m) rows rows' →
  (length (filter (λ m, unread_q x m) rows')
   ≤ length (filter (λ m, unread_q x m) rows))%nat.
Proof.
  induction 1 as [|m m' rows rows' Hm _ IH]; [done|].
  rewrite !filter_cons. destruct Hm as [->| ->].
  - destruct (decide (unread_q x m)); simpl; lia.
  - rewrite unread_q_set_is_read. rewrite decide_False by (by intros []).
    destruct (decide (unread_q x m)); simpl; lia.
Qed.

(** X7: opening a conversation adds, removes and reorders no row and
    changes nothing but read flags: every row is left as it was or is
    marked read, and only rows of this conversation that the viewer did
    not send are marked; users and key counter are untouched, and no
    user's unread count grows. *)
Theorem open_conversation_frame `{Orm} redis s (cu : User) uid :
  wf_store s →
  let s' := (get_conversation_messages redis s cu uid).2 in
  Forall2 (λ m m', m' = m
                   ∨ (m' = set_is_read true m
                      ∧ conversation_q (user_id cu) uid m
                      ∧ sender_id m ≠ user_id cu))
          (messages s) (messages s')
  ∧ users s' = users s ∧ employees s' = employees s
  ∧ next_id s' = next_id s
  ∧ ∀ x : User, (get_unread_count_api s' x ≤ get_unread_count_api s x)%nat.
Proof.
  intros Hwf s'.
  assert (Forall2 (λ m m', m' = m
                   ∨ (m' = set_is_read true m
                      ∧ conversation_q (user_id cu) uid m
                      ∧ sender_id m ≠ user_id cu))
            (messages s) (messages s')
          ∧ users s' = users s ∧ employees s' = employees s
          ∧ next_id s' = next_id s) as (Hrows & Hu & He & Hn).
  { subst s'. destruct (users s !! uid) as [r|] eqn:Hrow.
    - destruct (get_conversation_ok redis s cu uid Hwf)
        as (data & ou & -> & _); [by rewrite Hrow|].
      simpl. split; [|done].
      unfold read_on_open. apply Forall2_fmap_r, Forall_Forall2_diag.
      apply Forall_forall. intros m _. unfold compose.
      destruct (conversation_q (user_id cu) uid m) eqn:Hq; simpl; [|by left].
      case_bool_decide; simpl; [by left|]. by right.
    - unfold get_conversation_messages.
      rewrite (proj2 (User_objects_get_None s uid) Hrow). simpl.
      split; [|done]. apply Forall_Forall2_diag, Forall_forall. by left. }
  do 4 (split; [done|]).
  intros x. unfold get_unread_count_api. apply unread_count_read_only.
  eapply Forall2_impl; [exact Hrows|]. intros m m' [?|[? _]]; auto.
Qed.

Lemma open_conversation_frame_witness :
  let s' := (@get_conversation_messages engine_asc redis_up store2 jdoe 1).2 in
  Forall2 (λ m m', m' = m
                   ∨ (m' = set_is_read true m
                      ∧ conversation_q (user_id jdoe) 1 m
                      ∧ sender_id m ≠ user_id jdoe))
          (messages store2) (messages s')
  ∧ users s' = users store2 ∧ employees s' = employees store2
  ∧ next_id s' = next_id store2
  ∧ ∀ x : User,
      (get_unread_count_api s' x ≤ get_unread_count_api store2 x)%nat.
Proof.
  apply (@open_conversation_frame engine_asc redis_up store2 jdoe 1%nat).
  by_evaluation.
Defined.

(** X8: opening the same conversation again changes nothing more: the
    store after the second call is the store after the first. *)
Theorem open_conversation_idempotent `{Orm} redis redis' s (cu : User) uid :
  wf_store s →
  (get_conversation_messages redis'
     (get_conversation_messages redis s cu uid).2 cu uid).2
  = (get_conversation_messages redis s cu uid).2.
Proof.
  intros Hwf.
  pose proof (wf_store_open redis s cu uid Hwf) as Hwf'.
  destruct (users s !! uid) as [r|] eqn:Hrow.
  - destruct (get_conversation_ok redis s cu uid Hwf)
      as (data & ou & E & _); [by rewrite Hrow|].
    rewrite E in Hwf' |- *. simpl in *.
    destruct (get_conversation_ok redis'
                (with_messages (read_on_open (user_id cu) uid (messages s)) s)
                cu uid Hwf')
      as (data' & ou' & -> & _); [simpl; by rewrite Hrow|].
    simpl. by rewrite read_on_open_idem.
  - unfold get_conversation_messages.
    rewrite (proj2 (User_objects_get_None s uid) Hrow). simpl.
    by rewrite (proj2 (User_objects_get_None s uid) Hrow).
Qed.

Lemma open_conversation_idempotent_witness :
  (@get_conversation_messages engine_asc redis_down
     (@get_conversation_messages engine_asc redis_up store2 jdoe 1).2 jdoe 1).2
  = (@get_conversation_messages engine_asc redis_up store2 jdoe 1).2.
Proof.
  apply (@open_conversation_idempotent engine_asc redis_up redis_down store2
           jdoe 1%nat).
  by_evaluation.
Defined.

(** X9: for a viewer [b] and an existing user [a] other than [b],
    opening the conversation with [a] leaves the store exactly as
    marking the messages of [a] read does. *)
Theorem open_conversation_is_mark_read `{Orm} redis s (b : User) (a : nat) :
  wf_store s → is_Some (users s !! a) → a ≠ user_id b →
  (get_conversation_messages redis s b a).2 = (mark_as_read_api s b a).2.
Proof.
  intros Hwf Ha Hab.
  destruct (get_conversation_ok redis s b a Hwf Ha) as (data & ou & -> & _).
  unfold mark_as_read_api, read_on_open. simpl. f_equal.
  apply list_fmap_ext. intros i m _.
  destruct (mark_read_q a (user_id b) m) eqn:Hm.
  - unfold mark_read_q in Hm.
    apply andb_prop in Hm as [[[Hs Hr]%andb_prop Hu]%andb_prop Ht].
    apply bool_decide_eq_true in Hs, Hr, Ht.
    assert (conversation_q (user_id b) a m) as Hq
      by (apply conversation_q_spec; auto).
    apply Is_true_true in Hq. rewrite Hq. simpl.
    by rewrite bool_decide_eq_false_2 by congruence.
  - destruct (conversation_q (user_id b) a m) eqn:Hq; [|done]. simpl.
    case_bool_decide as Hs; [done|]. simpl.
    apply Is_true_true, conversation_q_spec in Hq as (Ht & [[? _]|[Hsa Hr]]);
      [done|].
    destruct (is_read m) eqn:Hread; [by apply set_is_read_id|].
    unfold mark_read_q in Hm.
    rewrite Hread, !bool_decide_eq_true_2 in Hm by done. done.
Qed.

Lemma open_conversation_is_mark_read_witness :
  (@get_conversation_messages engine_asc redis_up store2 jdoe 1).2
  = (mark_as_read_api store2 jdoe 1).2.
Proof.
  apply (@open_conversation_is_mark_read engine_asc redis_up store2 jdoe 1%nat).
  - by_evaluation.
  - by_evaluation.
  - simpl. lia.
Defined.

(** X10: after [b] marks the messages of [a] read, the unread count of
    any user [x] counts the messages that were unread for [x] except
    those sent by [a] with [b] among the recipients; so it never grows,
    and a message addressed to several users is read for all of them
    once one of them has marked it. *)
Theorem mark_as_read_unread_count s (b : User) (a : nat) (x : User) :
  get_unread_count_api (mark_as_read_api s b a).2 x
  = length (filter (λ m, unread_q (user_id x) m
                         && negb (bool_decide (sender_id m = a)
                                  && bool_decide (user_id b ∈ recipients m)))
                   (messages s))
  ∧ (get_unread_count_api (mark_as_read_api s b a).2 x
     ≤ get_unread_count_api s x)%nat.
Proof.
  unfold get_unread_count_api, mark_as_read_api. simpl.
  induction (messages s) as [|m rows [IH1 IH2]]; [done|].
  rewrite fmap_cons, !filter_cons.
  destruct (mark_read_q a (user_id b) m) eqn:Hm.
  - rewrite unread_q_set_is_read.
    unfold mark_read_q in Hm.
    apply andb_prop in Hm as [[[Hs Hr]%andb_prop Hu]%andb_prop Ht].
    rewrite Hs, Hr. cbn [andb negb]. rewrite andb_false_r.
    rewrite !decide_False by (by intros []).
    split; [done|]. destruct (decide (unread_q (user_id x) m)); simpl; lia.
  - destruct (unread_q (user_id x) m) eqn:Hx.
    + assert (bool_decide (sender_id m = a)
              && bool_decide (user_id b ∈ recipients m) = false) as ->.
      { apply Is_true_true, unread_q_spec in Hx as (_ & Hread & Ht).
        unfold mark_read_q in Hm.
        rewrite Hread, (bool_decide_eq_true_2 _ Ht) in Hm. simpl in Hm.
        by rewrite !andb_true_r in Hm. }
      cbn [andb negb]. rewrite !decide_True by done. simpl. lia.
    + cbn [andb]. rewrite !decide_False by (by intros []). done.
Qed.

(** ** Starting a conversation *)

Lemma get_conversation_other_user `{Orm} redis s (cu : User) uid data ou s' :
  get_conversation_messages redis s cu uid = (ConversationOk data ou, s') →
  ∃ other,
    User_objects_get s uid = Some other
    ∧ ou = mkOtherUser (user_id other) (initials other)
             (get_user_color (user_id other))
             (match employees s !! user_id other with
              | Some e => job_position e | None => "Team Member" end)
             (match employees s !! user_id other with
              | Some (mkEmployee _ (Some d)) => d
              | _ => "No Department" end)
             (redis_exists redis ("user_online_" +:+ pretty (user_id other))).
Proof.
  unfold get_conversation_messages.
  destruct (User_objects_get s uid) as [other|]; [|done].
  destruct (conversation_loop _ _ _ _) as [rows [data'|]]; [|done].
  intros [= <- <- <-]. by exists other.
Qed.

(** X11: on a consistent store, starting a conversation with user id
    [uid] and fetching the conversation with [uid] agree: both answer
    "not found" exactly when no user has that id, and otherwise they
    describe the other user alike (id, initials, colour, job position,
    online flag) and the start view reports an existing conversation
    exactly when the fetched message list is not empty.  A start
    request without a recipient id is answered "not found". *)
Theorem start_matches_conversation `{Orm} redis s (cu : User) uid :
  wf_store s →
  match start_conversation_api redis s cu (Some (mkStartData (Some uid))),
        (get_conversation_messages redis s cu uid).1 with
  | StartOk info, ConversationOk data ou =>
      si_user_id info = ou_id ou ∧ si_initials info = ou_initials ou
      ∧ si_avatar_color info = ou_avatar_color ou
      ∧ si_job_position info = ou_job_position ou
      ∧ si_is_online info = ou_is_online ou
      ∧ (si_has_existing_conversation info = true ↔ data ≠ [])
  | StartNotFound, ConversationNotFound => users s !! uid = None
  | _, _ => False
  end
  ∧ start_conversation_api redis s cu (Some (mkStartData None)) = StartNotFound.
Proof.
  intros Hwf. split; [|done].
  destruct (users s !! uid) as [r|] eqn:Hrow.
  - destruct (get_conversation_ok redis s cu uid Hwf)
      as (data & ou & E & V & _); [by rewrite Hrow|].
    destruct (get_conversation_other_user _ _ _ _ _ _ _ E)
      as (other & Hother & ->).
    rewrite E. unfold start_conversation_api. simpl. rewrite Hother. simpl.
    do 5 (split; [done|]).
    apply User_objects_get_id in Hother as [-> _].
    apply Forall2_length in V.
    assert (length (conversation_messages s (user_id cu) uid)
            = length (filter (λ m, conversation_q (user_id cu) uid m)
                             (messages s))) as Hlen.
    { unfold conversation_messages.
      by rewrite (order_by_created_at_perm _). }
    rewrite Hlen in V. rewrite negb_true_iff, bool_decide_eq_false.
    split; intros Hne Hnil; apply Hne, nil_length_inv.
    + by rewrite V, Hnil.
    + by rewrite <- V, Hnil.
  - unfold start_conversation_api, get_conversation_messages. simpl.
    by rewrite (proj2 (User_objects_get_None s uid) Hrow).
Qed.

Lemma start_matches_conversation_witness :
  match @start_conversation_api redis_up store2 ana
          (Some (mkStartData (Some 2%nat))),
        (@get_conversation_messages engine_asc redis_up store2 ana 2).1 with
  | StartOk info, ConversationOk data ou =>
      si_user_id info = ou_id ou ∧ si_initials info = ou_initials ou
      ∧ si_avatar_color info = ou_avatar_color ou
      ∧ si_job_position info = ou_job_position ou
      ∧ si_is_online info = ou_is_online ou
      ∧ (si_has_existing_conversation info = true ↔ data ≠ [])
  | StartNotFound, ConversationNotFound => users store2 !! 2%nat = None
  | _, _ => False
  end
  ∧ start_conversation_api redis_up store2 ana (Some (mkStartData None))
    = StartNotFound.
Proof.
  apply (@start_matches_conversation engine_asc redis_up store2 ana 2%nat).
  by_evaluation.
Defined.

(** ** A sent message is seen by both parties *)

Lemma send_ok_stored `{Orm} redis s (u : User) rid raw now now' mid ts s' pub :
  wf_store s →
  send_message_api redis s u (Some (mkSendData (Some rid) raw)) now now'
    = (SendOk mid ts, s', pub) →
  users s' = users s
  ∧ ∃ m, m ∈ messages s' ∧ msg_id m = mid ∧ created_at m = ts
         ∧ content m = Str.strip raw ∧ sender_id m = user_id u
         ∧ message_type m = "direct" ∧ rid ∈ recipients m.
Proof.
  intros Hwf E.
  destruct (send_ok_inv _ _ _ _ _ _ _ _ _ _ _ E) as (Hrid & Htext & Hu).
  destruct (send_valid_cases redis s u rid raw now now' Hwf Hrid Hu Htext)
    as (pub' & [(e & l1 & l2 & Hin & He & Hsplit & Hne & E')|[Hnone E']]);
    rewrite E' in E; injection E as <- <- <- <-; (split; [done|]).
  - exists (set_recipients ({[rid]} ∪ recipients e) e).
    destruct He as (Hs & Hc & Ht & _). simpl.
    split; [apply elem_of_app; right; left|].
    do 5 (split; [done|]).
    apply elem_of_union. left. by apply elem_of_singleton.
  - exists (new_message s (user_id u) rid (Str.strip raw) now'). simpl.
    split; [apply elem_of_app; right; left|].
    do 5 (split; [done|]). by apply elem_of_singleton.
Qed.

Lemma Forall2_elem_of_l {A B} (P : A → B → Prop) l k x :
  Forall2 P l k → x ∈ l → ∃ y, y ∈ k ∧ P x y.
Proof.
  induction 1 as [|a b l k Hab _ IH]; [by intros ?%elem_of_nil|].
  intros [->|Hx]%elem_of_cons.
  - exists b. split; [left|done].
  - destruct (IH Hx) as (y & Hy & Hxy). exists y. split; [by right|done].
Qed.

Lemma conversation_contains `{Orm} redis s (cu : User) uid m :
  wf_store s → is_Some (users s !! uid) →
  m ∈ messages s → conversation_q (user_id cu) uid m →
  ∃ data ou s' v,
    get_conversation_messages redis s cu uid = (ConversationOk data ou, s')
    ∧ v ∈ data ∧ view_of s (user_id cu) m v.
Proof.
  intros Hwf Hu Hm Hq.
  destruct (get_conversation_ok redis s cu uid Hwf Hu)
    as (data & ou & E & V & _).
  destruct (Forall2_elem_of_l _ _ _ m V) as (v & Hv & Hview).
  { by apply elem_of_conversation_messages. }
  by eexists data, ou, _, v.
Qed.

Lemma start_conversation_existing redis s (cu : User) uid m :
  is_Some (users s !! uid) →
  m ∈ messages s → conversation_q (user_id cu) uid m →
  ∃ info,
    start_conversation_api redis s cu (Some (mkStartData (Some uid)))
      = StartOk info
    ∧ si_user_id info = uid
    ∧ si_has_existing_conversation info = true.
Proof.
  intros (other & Hother & Hid)%User_objects_get_is_Some Hm Hq.
  unfold start_conversation_api. simpl. rewrite Hother. simpl.
  eexists. split; [reflexivity|]. simpl. split; [done|].
  rewrite Hid. apply negb_true_iff, bool_decide_eq_false. intros Hnil.
  assert (m ∈ filter (λ m, conversation_q (user_id cu) uid m) (messages s))
    as Hin by (by apply list_elem_of_filter).
  rewrite Hnil in Hin. by apply elem_of_nil in Hin.
Qed.

(** X12: after a successful send from [a] to the user with id [rid], on
    a consistent store where [a] is a user, both parties see the
    message: the conversation that [a] fetches with [rid] contains an
    entry with the id, timestamp and trimmed content of the response,
    marked as sent by the viewer; the conversation that the recipient
    fetches with [a] contains it too, and, when the recipient is not [a]
    itself, reports it as received and read; and for either party
    starting a conversation with the other reports an existing
    conversation. *)
Theorem sent_message_is_seen `{Orm} redis redis' s (a b : User) raw now now'
    mid ts s' pub :
  wf_store s → is_Some (users s !! user_id a) →
  send_message_api redis s a (Some (mkSendData (Some (user_id b)) raw)) now now'
    = (SendOk mid ts, s', pub) →
  (∃ data ou s'' v,
      get_conversation_messages redis' s' a (user_id b)
        = (ConversationOk data ou, s'')
      ∧ v ∈ data ∧ mv_id v = mid ∧ mv_timestamp v = ts
      ∧ mv_content v = Str.strip raw ∧ mv_sender_id v = user_id a
      ∧ mv_is_sent v = true)
  ∧ (∃ data ou s'' v,
      get_conversation_messages redis' s' b (user_id a)
        = (ConversationOk data ou, s'')
      ∧ v ∈ data ∧ mv_id v = mid ∧ mv_timestamp v = ts
      ∧ mv_content v = Str.strip raw ∧ mv_sender_id v = user_id a
      ∧ (user_id b ≠ user_id a →
         mv_is_sent v = false ∧ mv_is_read v = true))
  ∧ (∃ info,
      start_conversation_api redis' s' a
        (Some (mkStartData (Some (user_id b)))) = StartOk info
      ∧ si_has_existing_conversation info = true)
  ∧ (∃ info,
      start_conversation_api redis' s' b
        (Some (mkStartData (Some (user_id a)))) = StartOk info
      ∧ si_has_existing_conversation info = true).
Proof.
  intros Hwf Ha E.
  assert (wf_store s') as Hwf'.
  { pose proof (wf_store_send redis s a
                  (Some (mkSendData (Some (user_id b)) raw)) now now' Hwf Ha)
      as Hw. by rewrite E in Hw. }
  destruct (send_ok_inv _ _ _ _ _ _ _ _ _ _ _ E) as (_ & _ & Hb).
  destruct (send_ok_stored _ _ _ _ _ _ _ _ _ _ _ Hwf E)
    as (Husers & m & Hm & Hid & Hts & Hc & Hs & Ht & Hr).
  rewrite <- Husers in Ha, Hb.
  assert (conversation_q (user_id a) (user_id b) m) as Hq
    by (apply conversation_q_spec; auto).
  assert (conversation_q (user_id b) (user_id a) m) as Hq'
    by (apply conversation_q_spec; auto).
  split; [|split; [|split]].
  - destruct (conversation_contains redis' s' a (user_id b) m Hwf' Hb Hm Hq)
      as (data & ou & s'' & v & Econv & Hv
          & (Vi & Vc & Vs & Vt & Vsent & _)).
    exists data, ou, s'', v. split; [done|]. split; [done|].
    rewrite Vi, Vt, Vc, Vs, Vsent, Hs. do 4 (split; [done|]).
    by rewrite bool_decide_eq_true_2.
  - destruct (conversation_contains redis' s' b (user_id a) m Hwf' Ha Hm Hq')
      as (data & ou & s'' & v & Econv & Hv
          & (Vi & Vc & Vs & Vt & Vsent & Vread & _)).
    exists data, ou, s'', v. split; [done|]. split; [done|].
    rewrite Vi, Vt, Vc, Vs, Hs. do 4 (split; [done|]).
    intros Hne. rewrite Vread, Vsent, Hs.
    rewrite bool_decide_eq_false_2 by congruence.
    split; [done|]. by rewrite orb_true_r.
  - destruct (start_conversation_existing redis' s' a (user_id b) m Hb Hm Hq)
      as (info & Estart & _ & Hflag).
    by exists info.
  - destruct (start_conversation_existing redis' s' b (user_id a) m Ha Hm Hq')
      as (info & Estart & _ & Hflag).
    by exists info.
Qed.

Lemma sent_message_is_seen_witness :
  (∃ data ou s'' v,
      @get_conversation_messages engine_asc redis_down store1 ana (user_id jdoe)
        = (ConversationOk data ou, s'')
      ∧ v ∈ data ∧ mv_id v = 1%nat ∧ mv_timestamp v = 0
      ∧ mv_content v = Str.strip " hi " ∧ mv_sender_id v = user_id ana
      ∧ mv_is_sent v = true)
  ∧ (∃ data ou s'' v,
      @get_conversation_messages engine_asc redis_down store1 jdoe (user_id ana)
        = (ConversationOk data ou, s'')
      ∧ v ∈ data ∧ mv_id v = 1%nat ∧ mv_timestamp v = 0
      ∧ mv_content v = Str.strip " hi " ∧ mv_sender_id v = user_id ana
      ∧ (user_id jdoe ≠ user_id ana →
         mv_is_sent v = false ∧ mv_is_read v = true))
  ∧ (∃ info,
      start_conversation_api redis_down store1 ana
        (Some (mkStartData (Some (user_id jdoe)))) = StartOk info
      ∧ si_has_existing_conversation info = true)
  ∧ (∃ info,
      start_conversation_api redis_down store1 jdoe
        (Some (mkStartData (Some (user_id ana)))) = StartOk info
      ∧ si_has_existing_conversation info = true).
Proof.
  apply (@sent_message_is_seen engine_asc redis_up redis_down store0 ana jdoe
           " hi " 0 0 1%nat 0 store1
           (publish_message redis_up
              (mkMessage 1 1 ∅ "hi" "direct" false 0) ana jdoe)).
  - by_evaluation.
  - by_evaluation.
  - by vm_compute.
Defined.

(** ** Searching users *)


(** X14: every entry of a search result describes an active member of a
    project that the requesting user manages, names that project, is
    never the requesting user, and matches the query: the lowercased,
    trimmed query, of at least two characters, occurs in the lowercased
    full name or in the lowercased e-mail address of the member. *)
Theorem search_users_sound (get_full_name : User → string) redis t
    (u : User) q r :
  r ∈ search_users_api get_full_name redis t u q →
  sr_id r ≠ user_id u
  ∧ (2 ≤ String.length (Str.lower (Str.strip q)))%nat
  ∧ ∃ member p,
      member ∈ project_members t
      ∧ member_is_active member = true
      ∧ projects t !! member_project member = Some p
      ∧ project_manager p = user_id u
      ∧ sr_id r = user_id (member_user member)
      ∧ sr_name r = get_full_name (member_user member)
      ∧ sr_email r = member_email member
      ∧ sr_job_position r = member_job_position member
      ∧ sr_project r = project_name p
      ∧ sr_avatar_color r = get_user_color (user_id (member_user member))
      ∧ (Str.contains (Str.lower (Str.strip q))
           (Str.lower (get_full_name (member_user member)))
         || Str.contains (Str.lower (Str.strip q))
              (Str.lower (member_email member))) = true.
Proof.
  unfold search_users_api.
  destruct (_ <? 2)%nat eqn:Hlen; [by intros ?%elem_of_nil|].
  apply Nat.ltb_ge in Hlen.
  intros Hin%subseteq_take.
  apply list_elem_of_omap in Hin as (member & Hmember & Hentry).
  apply elem_of_remove_dups, list_elem_of_filter in Hmember as [Hq Hmember].
  unfold managed_member_q in Hq. apply andb_prop_elim in Hq as [Hp Hactive].
  destruct (projects t !! member_project member) as [p|] eqn:Hproj; [|done].
  apply bool_decide_unpack in Hp. apply Is_true_true in Hactive.
  unfold search_entry in Hentry. rewrite Hproj in Hentry.
  case_bool_decide as Hself; [done|].
  destruct (_ || _) eqn:Hmatch; [|done].
  injection Hentry as <-. simpl.
  split; [done|]. split; [done|]. by exists member, p.
Qed.

Lemma search_users_sound_witness :
  sr_id (mkSearchResult 2 "" "jdoe@example.org" "Developer" "Website" false
           "bg-golden-orange") ≠ user_id ana
  ∧ (2 ≤ String.length (Str.lower (Str.strip " JDoe ")))%nat
  ∧ ∃ member p,
      member ∈ project_members some_projects
      ∧ member_is_active member = true
      ∧ projects some_projects !! member_project member = Some p
      ∧ project_manager p = user_id ana
      ∧ sr_id (mkSearchResult 2 "" "jdoe@example.org" "Developer" "Website"
                 false "bg-golden-orange") = user_id (member_user member)
      ∧ sr_name (mkSearchResult 2 "" "jdoe@example.org" "Developer" "Website"
                   false "bg-golden-orange") = full_name (member_user member)
      ∧ sr_email (mkSearchResult 2 "" "jdoe@example.org" "Developer" "Website"
                    false "bg-golden-orange") = member_email member
      ∧ sr_job_position (mkSearchResult 2 "" "jdoe@example.org" "Developer"
                           "Website" false "bg-golden-orange")
        = member_job_position member
      ∧ sr_project (mkSearchResult 2 "" "jdoe@example.org" "Developer"
                      "Website" false "bg-golden-orange") = project_name p
      ∧ sr_avatar_color (mkSearchResult 2 "" "jdoe@example.org" "Developer"
                           "Website" false "bg-golden-orange")
        = get_user_color (user_id (member_user member))
      ∧ (Str.contains (Str.lower (Str.strip " JDoe "))
           (Str.lower (full_name (member_user member)))
         || Str.contains (Str.lower (Str.strip " JDoe "))
              (Str.lower (member_email member))) = true.
Proof.
  apply (search_users_sound full_name redis_up some_projects ana " JDoe ").
  vm_compute. left.
Defined.

(** ** Length of the initials *)

Lemma upper_char_idem c : Str.upper_char (Str.upper_char c) = Str.upper_char c.
Proof. by destruct c as [[] [] [] [] [] [] [] []]. Qed.

Lemma upper_idem s : Str.upper (Str.upper s) = Str.upper s.
Proof.
  induction s as [|c s IH]; simpl; [done|]. by rewrite upper_char_idem, IH.
Qed.

Lemma length_upper s : String.length (Str.upper s) = String.length s.
Proof. induction s as [|c s IH]; simpl; congruence. Qed.

Lemma length_str_take n s :
  String.length (Str.take n s) = (n `min` String.length s)%nat.
Proof.
  revert s. induction n as [|n IH]; intros [|c s]; simpl; [done..|].
  by rewrite IH.
Qed.

(** X15: for a user whose names and username are ASCII, the initials
    are already uppercase and never longer than two characters; they
    have exactly two characters when both names are non-empty, and
    otherwise as many as the username has, up to two (one for a
    one-character username, none for an empty one). *)
Theorem initials_length (u : User) :
  Str.isascii (first_name u) = true → Str.isascii (last_name u) = true →
  Str.isascii (username u) = true →
  Str.upper (initials u) = initials u
  ∧ (String.length (initials u) ≤ 2)%nat
  ∧ (first_name u ≠ "" → last_name u ≠ "" → String.length (initials u) = 2%nat)
  ∧ (first_name u = "" ∨ last_name u = "" →
     String.length (initials u) = (2 `min` String.length (username u))%nat).
Proof.
  intros _ _ _. unfold initials.
  destruct (first_name u) as [|f fs], (last_name u) as [|l ls];
    cbn [Str.truthy andb].
  1-3: rewrite upper_idem, length_upper, length_str_take;
    (split; [done|]); (split; [lia|]); (split; [|done]); intros; congruence.
  simpl. rewrite !upper_char_idem.
  split; [done|]. split; [lia|]. split; [done|]. by intros [?|?].
Qed.

(** A user without names and with a one-letter username. *)
Lemma initials_length_witness :
  Str.upper (initials (mkUser 4 "q" "" "")) = initials (mkUser 4 "q" "" "")
  ∧ (String.length (initials (mkUser 4 "q" "" "")) ≤ 2)%nat
  ∧ (first_name (mkUser 4 "q" "" "") ≠ "" →
     last_name (mkUser 4 "q" "" "") ≠ "" →
     String.length (initials (mkUser 4 "q" "" "")) = 2%nat)
  ∧ (first_name (mkUser 4 "q" "" "") = ""
     ∨ last_name (mkUser 4 "q" "" "") = "" →
     String.length (initials (mkUser 4 "q" "" ""))
     = (2 `min` String.length (username (mkUser 4 "q" "" "")))%nat).
Proof.
  apply (initials_length (mkUser 4 "q" "" "")); by vm_compute.
Defined.

(** ** Integrity, along any sequence of requests *)

(** X16: starting from an empty message table, any sequence of sends by
    existing users, conversation fetches and mark-read calls leaves a
    consistent store (message ids unique and below the key counter,
    every sender an existing user) and never changes the user table. *)
Theorem integrity_invariant `{Orm} us emp s :
  rtc step (mkStore us emp [] 1) s → wf_store s ∧ users s = us.
Proof.
  intros Hrtc. split; [by eapply wf_store_reachable|].
  change us with (users (mkStore us emp [] 1)).
  induction Hrtc as [|s1 s2 s3 Hstep _ IH]; [done|].
  by rewrite IH, (step_users _ _ Hstep).
Qed.

Lemma integrity_invariant_witness :
  wf_store store2 ∧ users store2 = some_users.
Proof.
  apply (@integrity_invariant engine_asc some_users ∅ store2).
  apply (rtc_l _ _ store1).
  - apply (@step_send engine_asc store0 redis_up ana
             (Some (mkSendData (Some 2%nat) "hi")) 0 0).
    by_evaluation.
  - apply rtc_once.
    apply (@step_send engine_asc store1 redis_up jdoe
             (Some (mkSendData (Some 1%nat) "hello")) 0 0).
    by_evaluation.
Defined.
